(** * Media uniqueness engine: a shallow embedding of [main.py]

    The development follows the class [MediaProcessor] of [main.py]:
    the risk classifier ([get_risk_level]), the perceptual-hash comparison
    ([calculate_phash_difference]), the image pipeline ([process_image]),
    the tier tables of [process_image] and [process_video], and the
    analyzer ([analyze_video_uniqueness]).

    Numbers.  Python's [float] values are modelled by the rationals [Q]
    (every finite double is a rational); the few places where the code
    can meet a NaN are written out explicitly.  Python's [int] is [Z].

    Failure.  A Python exception is a value of [exn]; a call either
    returns or raises ([outcome]).  A bare [except:] is a [match] on the
    outcome. *)

From Stdlib Require Import String ZArith QArith Qminmax Bool List Lia Lqa.
From Stdlib Require Import DecimalString.
Import ListNotations.

Local Open Scope Q_scope.

(* ===================================================================== *)
(** * Exceptions and outcomes *)
(* ===================================================================== *)

(** The exception classes that the modelled calls can raise. *)
Inductive exn : Type :=
| AttributeError      (* attribute access on [None] *)
| TypeError           (* [ImageHash.__sub__] on hashes of different size *)
| ZeroDivisionError
| ValueError          (* [random.randint] on an empty range, [np.linspace] *)
| OSError             (* a file that cannot be opened *)
| CvError.            (* [cv2.error] *)

Inductive outcome (A : Type) : Type :=
| Return (a : A)
| Raise (e : exn).
Arguments Return {A} a.
Arguments Raise {A} e.

Definition succeeded {A} (o : outcome A) : bool :=
  match o with Return _ => true | Raise _ => false end.

(** Sequencing of calls that may raise: the first exception leaves. *)
Definition and_then {A B} (o : outcome A) (k : A -> outcome B) : outcome B :=
  match o with
  | Return a => k a
  | Raise e => Raise e
  end.

Notation "x <~ o ;; k" := (and_then o (fun x => k))
  (at level 61, o at next level, right associativity).

(* ===================================================================== *)
(** * Perceptual hash engine *)
(* ===================================================================== *)

Module PHash.

(** [imagehash.ImageHash]: the field [hash] is a two-dimensional numpy
    array of booleans, kept here as its list of rows. *)
Definition ImageHash : Type := list (list bool).

(** [hash.flatten()] and [hash.size]. *)
Definition flatten (h : ImageHash) : list bool := concat h.
Definition size (h : ImageHash) : nat := length (flatten h).

(** [len(hash)] is the number of rows; [hash.dtype.itemsize] is 1 for
    numpy's boolean dtype. *)
Definition itemsize : Z := 1.

(** Whether [h] has [r] rows of [c] entries each (numpy's [shape]). *)
Definition has_shape (r c : nat) (h : ImageHash) : bool :=
  (length h =? r)%nat && forallb (fun row => (length row =? c)%nat) h.

(** Elementwise [a != b] on two flattened arrays of the same size. *)
Fixpoint not_equal (a b : list bool) : list bool :=
  match a, b with
  | x :: a', y :: b' => xorb x y :: not_equal a' b'
  | _, _ => []
  end.

(** [numpy.count_nonzero] on a boolean array. *)
Fixpoint count_nonzero (l : list bool) : Z :=
  match l with
  | [] => 0
  | b :: l' => ((if b then 1 else 0) + count_nonzero l')%Z
  end.

(** [ImageHash.__sub__]:
    raise [TypeError] when the sizes differ, else
    [numpy.count_nonzero(self.hash.flatten() != other.hash.flatten())]. *)
Definition hash_sub (h1 h2 : ImageHash) : outcome Z :=
  if (size h1 =? size h2)%nat
  then Return (count_nonzero (not_equal (flatten h1) (flatten h2)))
  else Raise TypeError.

(** Python's true division of two integers. *)
Definition true_div (a b : Z) : outcome Q :=
  if (b =? 0)%Z then Raise ZeroDivisionError
  else Return (inject_Z a / inject_Z b).

(** The three lines shared by [calculate_phash_difference] and the loop of
    [analyze_video_uniqueness]:
    [diff = hash1 - hash2],
    [max_diff = len(hash1.hash) * hash1.hash.dtype.itemsize * 8],
    [percentage = (diff / max_diff) * 100]. *)
Definition percentage_of (hash1 hash2 : ImageHash) : outcome Q :=
  match hash_sub hash1 hash2 with
  | Raise e => Raise e
  | Return diff =>
      let max_diff := (Z.of_nat (length hash1) * itemsize * 8)%Z in
      match true_div diff max_diff with
      | Raise e => Raise e
      | Return r => Return (r * 100)
      end
  end.

(** The Hamming distance of the specification: the number of positions at
    which two bit vectors differ. *)
Fixpoint hamming (a b : list bool) : Z :=
  match a, b with
  | x :: a', y :: b' => ((if Bool.eqb x y then 0 else 1) + hamming a' b')%Z
  | _, _ => 0%Z
  end.

Section Engine.

(** A decoded picture (PIL's [Image]), the file system seen through
    [Image.open], and [imagehash.phash] with its default arguments. *)
Variable Picture : Type.
Variable Image_open : string -> outcome Picture.
Variable phash : Picture -> ImageHash.

(** [def calculate_phash_difference(self, img1_path, img2_path)]. *)
Definition calculate_phash_difference (img1_path img2_path : string) : outcome Q :=
  match Image_open img1_path with
  | Raise e => Raise e
  | Return img1 =>
      match Image_open img2_path with
      | Raise e => Raise e
      | Return img2 =>
          let hash1 := phash img1 in
          let hash2 := phash img2 in
          percentage_of hash1 hash2
      end
  end.

End Engine.

End PHash.

(* ===================================================================== *)
(** * The pseudo-random source *)
(* ===================================================================== *)

Module Rand.

(** The state of Python's module-level generator: the sequence of raw
    words it is going to produce, and how many have been consumed. *)
Record state : Type := { draws : nat -> Z; pos : nat }.

Definition next (s : state) : Z * state :=
  (draws s (pos s), {| draws := draws s; pos := S (pos s) |}).

Definition two53 : positive := (2 ^ 53)%positive.

(** [random.random()]: a multiple of 2^-53 in the half-open unit interval. *)
Definition random (s : state) : Q * state :=
  let (r, s') := next s in
  ((r mod Zpos two53)%Z # two53, s').

(** [random.uniform(a, b)] is [a + (b - a) * self.random()]. *)
Definition uniform (a b : Q) (s : state) : Q * state :=
  let (u, s') := random s in
  (a + (b - a) * u, s').

(** [random.randint(a, b)] is [randrange(a, b + 1)]: with
    [width = b + 1 - a], it returns [a + _randbelow(width)] when
    [width > 0] and raises [ValueError] otherwise. *)
Definition randint (a b : Z) (s : state) : outcome Z * state :=
  let width := (b + 1 - a)%Z in
  if (0 <? width)%Z
  then let (r, s') := next s in (Return (a + r mod width)%Z, s')
  else (Raise ValueError, s).

End Rand.

(* ===================================================================== *)
(** * Image transform pipeline *)
(* ===================================================================== *)

Module ImagePipeline.

(** A pixel of a three-channel [uint8] array. *)
Definition Pixel : Type := (Z * Z * Z)%type.

(** A decoded image, as [cv2.imread] returns it: a numpy array of shape
    [(rows, cols, 3)]. *)
Record Mat : Type := { rows : nat; cols : nat; at_ : nat -> nat -> Pixel }.

Definition empty (m : Mat) : bool := (rows m =? 0)%nat || (cols m =? 0)%nat.
Definition same_shape (a b : Mat) : bool :=
  (rows a =? rows b)%nat && (cols a =? cols b)%nat.

(** The files that hold a readable image, by path. *)
Definition Files : Type := string -> option Mat.

Definition write_file (fs : Files) (path : string) (m : Mat) : Files :=
  fun p => if String.eqb p path then Some m else fs p.

Record World : Type := { files : Files; rng : Rand.state }.

(** Computations that read and write the world and may raise. *)
Definition M (A : Type) : Type := World -> outcome A * World.

Definition ret {A} (a : A) : M A := fun w => (Return a, w).
Definition raise {A} (e : exn) : M A := fun w => (Raise e, w).
Definition bind {A B} (c : M A) (k : A -> M B) : M B :=
  fun w => match c w with
           | (Return a, w') => k a w'
           | (Raise e, w') => (Raise e, w')
           end.
Definition lift {A} (o : outcome A) : M A := fun w => (o, w).

Notation "x <- c ;; k" := (bind c (fun x => k))
  (at level 61, c at next level, right associativity).

Definition uniform (a b : Q) : M Q :=
  fun w => let (x, s) := Rand.uniform a b (rng w) in
           (Return x, {| files := files w; rng := s |}).
Definition randint (a b : Z) : M Z :=
  fun w => let (x, s) := Rand.randint a b (rng w) in
           (x, {| files := files w; rng := s |}).

(** [int(x)] on a float: truncation towards zero. *)
Definition py_int (x : Q) : Z := Z.quot (Qnum x) (Zpos (Qden x)).

(** [np.clip(x, lo, hi)]. *)
Definition np_clip (x lo hi : Q) : Q := Qmin (Qmax x lo) hi.

(** Normalisation of one bound of a Python slice against a length. *)
Definition slice_bound (n : nat) (i : Z) : nat :=
  if (i <? 0)%Z then Z.to_nat (Z.max 0 (i + Z.of_nat n))
  else Z.to_nat (Z.min i (Z.of_nat n)).

(** [img[y0:y1, x0:x1]]. *)
Definition slice2 (img : Mat) (y0 y1 x0 x1 : Z) : Mat :=
  let r0 := slice_bound (rows img) y0 in
  let r1 := slice_bound (rows img) y1 in
  let c0 := slice_bound (cols img) x0 in
  let c1 := slice_bound (cols img) x1 in
  {| rows := r1 - r0; cols := c1 - c0;
     at_ := fun i j => at_ img (r0 + i) (c0 + j) |}.

(** The level-based parameters of [process_image]. *)
Record ImageParams : Type := {
  crop_percent : Q;
  scale_factor : Q;
  noise_opacity : Q;
  color_shift_h : Q;
  color_shift_s : Q;
  color_shift_l : Q
}.

(** Lines 84-105 of [process_image]: the [if level == 1 / elif level == 2 /
    else] chain, with the draws in the order the code makes them. *)
Definition image_parameters (level : Z) : M ImageParams :=
  if (level =? 1)%Z then
    cp <- uniform 0.02 0.03 ;;
    sf <- uniform 0.995 1.005 ;;
    h <- uniform (-0.5) 0.5 ;;
    s <- uniform (-1) 1 ;;
    l <- uniform (-1.5) 1.5 ;;
    ret {| crop_percent := cp; scale_factor := sf; noise_opacity := 0.002;
           color_shift_h := h; color_shift_s := s; color_shift_l := l |}
  else if (level =? 2)%Z then
    cp <- uniform 0.02 0.04 ;;
    sf <- uniform 0.985 1.015 ;;
    h <- uniform (-0.8) 0.8 ;;
    s <- uniform (-1.5) 1.5 ;;
    l <- uniform (-2.5) 2.5 ;;
    ret {| crop_percent := cp; scale_factor := sf; noise_opacity := 0.003;
           color_shift_h := h; color_shift_s := s; color_shift_l := l |}
  else
    cp <- uniform 0.03 0.06 ;;
    sf <- uniform 0.97 1.03 ;;
    h <- uniform (-1.0) 1.0 ;;
    s <- uniform (-2.0) 2.0 ;;
    l <- uniform (-3.0) 3.0 ;;
    ret {| crop_percent := cp; scale_factor := sf; noise_opacity := 0.004;
           color_shift_h := h; color_shift_s := s; color_shift_l := l |}.

(** The crop rectangle: top-left corner and extent. *)
Record CropBox : Type := { start_x : Z; start_y : Z; crop_w : Z; crop_h : Z }.

(** Lines 108-111 of [process_image]. *)
Definition sample_crop_box (width height : Z) (cp : Q) : M CropBox :=
  let cw := py_int (inject_Z width * (1 - cp)) in
  let ch := py_int (inject_Z height * (1 - cp)) in
  sx <- randint 0 (width - cw) ;;
  sy <- randint 0 (height - ch) ;;
  ret {| start_x := sx; start_y := sy; crop_w := cw; crop_h := ch |}.

(** Whether a rectangle lies inside an image of the given size. *)
Definition inside (b : CropBox) (width height : Z) : Prop :=
  (0 <= start_x b /\ 0 <= crop_w b /\ start_x b + crop_w b <= width /\
   0 <= start_y b /\ 0 <= crop_h b /\ start_y b + crop_h b <= height)%Z.

(** [cv2.getRotationMatrix2D(center, 0, scale)]: for a zero angle the
    matrix is [[s, 0, (1-s)*cx], [0, s, (1-s)*cy]]. *)
Definition getRotationMatrix2D_angle0 (center : Z * Z) (scale : Q)
  : (Q * Q * Q) * (Q * Q * Q) :=
  let (cx, cy) := center in
  ((scale, 0, (1 - scale) * inject_Z cx), (0, scale, (1 - scale) * inject_Z cy)).

(** One assignment [hls[:,:,k] = np.clip(hls[:,:,k] + shift, lo, hi)] on
    one entry: the sum is a float, the store into the [uint8] array
    truncates it. *)
Definition shift_channel (c : Z) (shift lo hi : Q) : Z :=
  py_int (np_clip (inject_Z c + shift) lo hi).

Section Pipeline.

(** The pixel arithmetic of OpenCV and the draw of numpy's generator are
    outside the repository; they enter as functions on pixels.  The
    shapes they produce are the ones OpenCV documents, written into the
    wrappers below. *)
Variable resize_at : Mat -> nat -> nat -> nat -> nat -> Pixel.
Variable warp_at : Mat -> (Q * Q * Q) * (Q * Q * Q) -> nat -> nat -> Pixel.
Variable normal_noise : Q -> nat -> nat -> nat -> nat -> Pixel.
Variable addWeighted_px : Pixel -> Q -> Pixel -> Q -> Q -> Pixel.
Variable bgr2hls : Pixel -> Pixel.
Variable hls2bgr : Pixel -> Pixel.
(** What [cv2.imwrite] answers for a path and an image: [True] after
    writing, [False] without writing, or a [cv2.error]. *)
Variable imwrite_status : string -> Mat -> outcome bool.

(** [cv2.imread(path)]: the decoded image, or [None]. *)
Definition cv2_imread (path : string) : M (option Mat) :=
  fun w => (Return (files w path), w).

(** [cv2.resize(src, (w, h))]: fails on an empty source or an empty
    target size, else gives an image of [h] rows and [w] columns. *)
Definition cv2_resize (src : Mat) (w h : Z) : M Mat :=
  if empty src || (w <=? 0)%Z || (h <=? 0)%Z then raise CvError
  else ret {| rows := Z.to_nat h; cols := Z.to_nat w;
              at_ := resize_at src (Z.to_nat w) (Z.to_nat h) |}.

(** [cv2.warpAffine(src, m, (w, h))]. *)
Definition cv2_warpAffine (src : Mat) (m : (Q * Q * Q) * (Q * Q * Q)) (w h : Z) : M Mat :=
  if empty src || (w <=? 0)%Z || (h <=? 0)%Z then raise CvError
  else ret {| rows := Z.to_nat h; cols := Z.to_nat w; at_ := warp_at src m |}.

(** [np.random.normal(0, sigma, shape).astype(np.uint8)]. *)
Definition np_random_normal (sigma : Q) (r c : nat) : Mat :=
  {| rows := r; cols := c; at_ := normal_noise sigma r c |}.

(** [cv2.addWeighted(a, alpha, b, beta, gamma)]: both inputs must have
    the same shape. *)
Definition cv2_addWeighted (a : Mat) (alpha : Q) (b : Mat) (beta gamma : Q) : M Mat :=
  if same_shape a b
  then ret {| rows := rows a; cols := cols a;
              at_ := fun i j => addWeighted_px (at_ a i j) alpha (at_ b i j) beta gamma |}
  else raise CvError.

(** [cv2.cvtColor(src, code)], for a per-pixel conversion. *)
Definition cv2_cvtColor (src : Mat) (conv : Pixel -> Pixel) : M Mat :=
  if empty src then raise CvError
  else ret {| rows := rows src; cols := cols src;
              at_ := fun i j => conv (at_ src i j) |}.

(** [cv2.imwrite(path, img)]. *)
Definition cv2_imwrite (path : string) (img : Mat) : M bool :=
  fun w => match imwrite_status path img with
           | Return true =>
               (Return true, {| files := write_file (files w) path img; rng := rng w |})
           | Return false => (Return false, w)
           | Raise e => (Raise e, w)
           end.

(** The three channel assignments in hue/lightness/saturation space. *)
Definition shift_hls (hls : Mat) (p : ImageParams) : Mat :=
  {| rows := rows hls; cols := cols hls;
     at_ := fun i j =>
       let '(h, l, s) := at_ hls i j in
       (shift_channel h (color_shift_h p) 0 179,
        shift_channel l (color_shift_l p) 0 255,
        shift_channel s (color_shift_s p) 0 255) |}.

(** Lines 84-131 of [process_image]: from the image that was read to the
    image that is handed to [cv2.imwrite]. *)
Definition transform (img : Mat) (level : Z) : M Mat :=
  let height := Z.of_nat (rows img) in
  let width := Z.of_nat (cols img) in
  p <- image_parameters level ;;
  box <- sample_crop_box width height (crop_percent p) ;;
  let img := slice2 img (start_y box) (start_y box + crop_h box)
                        (start_x box) (start_x box + crop_w box) in
  img <- cv2_resize img width height ;;
  let center := ((width / 2)%Z, (height / 2)%Z) in
  let rotation_matrix := getRotationMatrix2D_angle0 center (scale_factor p) in
  img <- cv2_warpAffine img rotation_matrix width height ;;
  let noise := np_random_normal (noise_opacity p * 255) (rows img) (cols img) in
  img <- cv2_addWeighted img 1 noise (noise_opacity p) 0 ;;
  hls <- cv2_cvtColor img bgr2hls ;;
  let hls := shift_hls hls p in
  cv2_cvtColor hls hls2bgr.

(** [def process_image(self, input_path, output_path, level)].
    When [cv2.imread] gives [None], [img.shape] raises
    [AttributeError]; the answer of [cv2.imwrite] is dropped and the
    function returns [True]. *)
Definition process_image (input_path output_path : string) (level : Z) : M bool :=
  img <- cv2_imread input_path ;;
  match img with
  | None => raise AttributeError
  | Some img =>
      img <- transform img level ;;
      _ <- cv2_imwrite output_path img ;;
      ret true
  end.

End Pipeline.

End ImagePipeline.

(* ===================================================================== *)
(** * Video transform pipeline: the tier table *)
(* ===================================================================== *)

Module VideoPipeline.

Record VideoParams : Type := {
  zoom_rate : Q;
  jitter_range : Q;
  gop_size : Z;
  crf : Z
}.

(** Lines 148-163 of [process_video]. *)
Definition video_parameters (level : Z) : VideoParams :=
  if (level =? 1)%Z then
    {| zoom_rate := 0.002; jitter_range := 1; gop_size := 30; crf := 22 |}
  else if (level =? 2)%Z then
    {| zoom_rate := 0.003; jitter_range := 1.5; gop_size := 25; crf := 21 |}
  else
    {| zoom_rate := 0.005; jitter_range := 2; gop_size := 20; crf := 20 |}.

End VideoPipeline.

(* ===================================================================== *)
(** * Uniqueness analyzer *)
(* ===================================================================== *)

Module Analyzer.

Import PHash.

(** A float that may be NaN. *)
Inductive fval : Type :=
| Fin (q : Q)
| NaN.

(** Python's [min(a, b)] and [max(a, b)] on numbers: the first argument is
    kept unless the second is strictly smaller (larger). *)
Definition py_min (a b : Q) : Q := if Qlt_le_dec b a then b else a.
Definition py_max (a b : Q) : Q := if Qlt_le_dec a b then b else a.

(** [max(0, x)] when [x] may be NaN: [x > 0] is false for a NaN, so the
    first argument stays. *)
Definition py_max0 (x : fval) : Q :=
  match x with
  | Fin q => py_max 0 q
  | NaN => 0
  end.

(** [a - x] and [x * b] on floats that may be NaN. *)
Definition rsub (a : Q) (x : fval) : fval :=
  match x with Fin q => Fin (a - q) | NaN => NaN end.
Definition fmul (x : fval) (b : Q) : fval :=
  match x with Fin q => Fin (q * b) | NaN => NaN end.

(** [np.linspace(0, stop, num)]: [num] evenly spaced points from 0 to
    [stop], both included; a single point is the start; a negative [num]
    is a [ValueError]. *)
Definition np_linspace0 (stop : Q) (num : Z) : outcome (list Q) :=
  if (num <? 0)%Z then Raise ValueError
  else if (num =? 0)%Z then Return []
  else if (num =? 1)%Z then Return [0]
  else
    let step := stop / inject_Z (num - 1) in
    Return (map (fun i => inject_Z (Z.of_nat i) * step) (seq 0 (Z.to_nat num))).

(** [np.mean] of a non-empty list of floats. *)
Definition Qsum (l : list Q) : Q := fold_right Qplus 0 l.
Definition np_mean (l : list Q) : Q := Qsum l / inject_Z (Z.of_nat (length l)).

(** [np.dot] on two vectors. *)
Fixpoint dot (u v : list Q) : Q :=
  match u, v with
  | x :: u', y :: v' => x * y + dot u' v'
  | _, _ => 0
  end.

Section Analysis.

(** Outside the repository: the square root of the floating-point
    library, which rounds. *)
Variable fsqrt : Q -> Q.

(** [np.abs] of a complex number [(re, im)]. *)
Definition np_abs (z : Q * Q) : Q :=
  let (re, im) := z in fsqrt (re * re + im * im).

(** [scipy.spatial.distance.cosine(u, v)]:
    [dist = 1.0 - uv / math.sqrt(uu * vv)], clipped to [0, 2].  The dot
    product of vectors of different lengths is a [ValueError]; a zero
    divisor gives a NaN for [0/0] and an infinity otherwise, which the
    clip turns into 0 or 2. *)
Definition cosine (u v : list Q) : outcome fval :=
  if negb (length u =? length v)%nat then Raise ValueError
  else
    let uv := dot u v in
    let uu := dot u u in
    let vv := dot v v in
    let s := fsqrt (uu * vv) in
    if Qeq_bool s 0 then
      if Qeq_bool uv 0 then Return NaN
      else if Qle_bool 0 uv then Return (Fin 0) else Return (Fin 2)
    else Return (Fin (ImagePipeline.np_clip (1 - uv / s) 0 2)).

(** Frames are numpy arrays; [Picture] is PIL's image;
    [AudioTrack] is moviepy's audio clip. *)
Variable Picture : Type.
Variable AudioTrack : Type.

(** [VideoFileClip]: its [duration], [get_frame(t)], and [audio], which
    is [None] for a clip without an audio track. *)
Record Clip : Type := {
  duration : Q;
  get_frame : Q -> outcome ImagePipeline.Mat;
  audio : option AudioTrack
}.

(** [VideoFileClip(path)]. *)
Variable VideoFileClip : string -> outcome Clip.
(** [Image.fromarray(cv2.cvtColor(frame, cv2.COLOR_BGR2RGB))]. *)
Variable to_pil : ImagePipeline.Mat -> outcome Picture.
(** [imagehash.phash] with its default arguments. *)
Variable phash : Picture -> ImageHash.
(** [clip.audio.write_audiofile(path)] followed by [librosa.load(path)]:
    the samples of the track. *)
Variable load_audio : AudioTrack -> outcome (list Q).
(** [librosa.stft], flattened: complex entries as pairs. *)
Variable librosa_stft : list Q -> outcome (list (Q * Q)).
(** The two [os.remove] calls that end the [try] block. *)
Variable cleanup : outcome unit.

(** The body of the [try] in the key-frame loop, for one time [t]. *)
Definition sample (original_clip processed_clip : Clip) (t : Q) : outcome Q :=
  orig_frame <~ get_frame original_clip t ;;
  proc_frame <~ get_frame processed_clip t ;;
  orig_pil <~ to_pil orig_frame ;;
  proc_pil <~ to_pil proc_frame ;;
  let orig_hash := phash orig_pil in
  let proc_hash := phash proc_pil in
  percentage_of orig_hash proc_hash.

(** The loop [for t in keyframe_times], with the list
    [phash_differences] as accumulator: a sample that raises is left
    out ([except: continue]), the others are appended. *)
Fixpoint keyframe_loop (original_clip processed_clip : Clip)
         (keyframe_times : list Q) (phash_differences : list Q) : list Q :=
  match keyframe_times with
  | [] => phash_differences
  | t :: rest =>
      match sample original_clip processed_clip t with
      | Return percentage =>
          keyframe_loop original_clip processed_clip rest
                        (phash_differences ++ [percentage])
      | Raise _ =>
          keyframe_loop original_clip processed_clip rest phash_differences
      end
  end.

(** The successfully computed per-sample percentages of the
    specification: the values of the samples that do not raise, in the
    order of the time points. *)
Definition successful_samples (original_clip processed_clip : Clip)
           (keyframe_times : list Q) : list Q :=
  flat_map (fun t => match sample original_clip processed_clip t with
                     | Return percentage => [percentage]
                     | Raise _ => []
                     end) keyframe_times.

(** The statements of the audio [try] block up to the assignment of
    [audio_similarity]. *)
Definition audio_dissimilarity (a b : AudioTrack) : outcome Q :=
  orig_audio <~ load_audio a ;;
  proc_audio <~ load_audio b ;;
  let n := Nat.min (length orig_audio) (length proc_audio) in
  orig_spec <~ librosa_stft (firstn n orig_audio) ;;
  proc_spec <~ librosa_stft (firstn n proc_audio) ;;
  d <~ cosine (map np_abs orig_spec) (map np_abs proc_spec) ;;
  let similarity := rsub 1 d in
  Return (py_max0 (fmul (rsub 1 similarity) 100)).

(** Lines 252-281: [audio_similarity = 0], then the guarded block.  An
    exception before the assignment leaves the initial 0; one raised by
    the clean-up comes after the assignment and leaves the computed
    value.  The variable holds a number on every path; the type leaves
    room for Python's [None]. *)
Definition audio_branch (original_clip processed_clip : Clip) : option Q :=
  let audio_similarity := Some 0 in
  match audio original_clip, audio processed_clip with
  | Some a, Some b =>
      match audio_dissimilarity a b with
      | Return x =>
          match cleanup with
          | Return _ => Some x
          | Raise _ => Some x
          end
      | Raise _ => audio_similarity
      end
  | _, _ => audio_similarity
  end.

(** [def analyze_video_uniqueness(self, original_path, processed_path)]. *)
Definition analyze_video_uniqueness (original_path processed_path : string)
  : outcome (Q * option Q) :=
  original_clip <~ VideoFileClip original_path ;;
  processed_clip <~ VideoFileClip processed_path ;;
  let duration := py_min (duration original_clip) (duration processed_clip) in
  keyframe_times <~ np_linspace0 duration
                      (Z.min 10 (ImagePipeline.py_int duration)) ;;
  let phash_differences :=
    keyframe_loop original_clip processed_clip keyframe_times [] in
  let avg_phash_diff :=
    match phash_differences with
    | [] => 0
    | _ :: _ => np_mean phash_differences
    end in
  let audio_similarity := audio_branch original_clip processed_clip in
  Return (avg_phash_diff, audio_similarity).

End Analysis.

Arguments duration {AudioTrack} c.
Arguments get_frame {AudioTrack} c t.
Arguments audio {AudioTrack} c.

End Analyzer.

(* ===================================================================== *)
(** * Risk classifier *)
(* ===================================================================== *)

Module Risk.

(** The three literals returned by [get_risk_level], as they stand in the
    source file.  They are the Russian words for "low", "medium" and
    "high" (stored in the file through a lossy re-encoding); the
    specification calls them "Low risk", "Medium risk" and "High risk". *)
Definition Low_risk : string := "–ù–∏–∑–∫–∏–π"%string.
Definition Medium_risk : string := "–°—Ä–µ–¥–Ω–∏–π"%string.
Definition High_risk : string := "–í—ã—Å–æ–∫–∏–π"%string.

(** [def get_risk_level(self, phash_diff, audio_similarity=None)].
    The optional second argument defaults to [None]. *)
Definition get_risk_level (phash_diff : Q) (audio_similarity : option Q) : string :=
  if Qle_bool 45 phash_diff then Low_risk
  else if Qle_bool 30 phash_diff then Medium_risk
  else High_risk.

End Risk.

(* ===================================================================== *)
(** * The tier tables of the specification *)
(* ===================================================================== *)

Module TierSpec.

Import ImagePipeline VideoPipeline.

Inductive Tier : Type := Low | Medium | High.

(** "level 1 -> low, level 2 -> medium, any level >= 3 -> high". *)
Definition tier_of_level (level : Z) : option Tier :=
  if (level =? 1)%Z then Some Low
  else if (level =? 2)%Z then Some Medium
  else if (3 <=? level)%Z then Some High
  else None.

(** One row of the image table: the crop and scale intervals, the fixed
    noise opacity, and the half-widths of the three colour shifts. *)
Record ImageRow : Type := {
  crop_lo : Q; crop_hi : Q;
  scale_lo : Q; scale_hi : Q;
  noise : Q;
  hue : Q; sat : Q; light : Q
}.

Definition image_table (t : Tier) : ImageRow :=
  match t with
  | Low => {| crop_lo := 0.02; crop_hi := 0.03; scale_lo := 0.995; scale_hi := 1.005;
              noise := 0.002; hue := 0.5; sat := 1; light := 1.5 |}
  | Medium => {| crop_lo := 0.02; crop_hi := 0.04; scale_lo := 0.985; scale_hi := 1.015;
                 noise := 0.003; hue := 0.8; sat := 1.5; light := 2.5 |}
  | High => {| crop_lo := 0.03; crop_hi := 0.06; scale_lo := 0.97; scale_hi := 1.03;
               noise := 0.004; hue := 1.0; sat := 2.0; light := 3.0 |}
  end.

Definition between (lo x hi : Q) : Prop := lo <= x /\ x <= hi.

(** The sampled parameters lie in a row of the table. *)
Definition within (r : ImageRow) (p : ImageParams) : Prop :=
  between (crop_lo r) (crop_percent p) (crop_hi r) /\
  between (scale_lo r) (scale_factor p) (scale_hi r) /\
  noise_opacity p = noise r /\
  between (- hue r) (color_shift_h p) (hue r) /\
  between (- sat r) (color_shift_s p) (sat r) /\
  between (- light r) (color_shift_l p) (light r).

Definition video_table (t : Tier) : VideoParams :=
  match t with
  | Low => {| zoom_rate := 0.002; jitter_range := 1; gop_size := 30; crf := 22 |}
  | Medium => {| zoom_rate := 0.003; jitter_range := 1.5; gop_size := 25; crf := 21 |}
  | High => {| zoom_rate := 0.005; jitter_range := 2; gop_size := 20; crf := 20 |}
  end.

End TierSpec.

(* ===================================================================== *)
(** * The interface around the engine *)
(* ===================================================================== *)

Module Shell.

Import PHash ImagePipeline.

(** [str(n)] for an integer, as an f-string puts it. *)
Definition py_str (n : Z) : string := NilZero.string_of_int (Z.to_int n).

(** The word the interface shows for a tier: the Russian words for
    "low", "medium" and "high", the same three literals that
    [get_risk_level] returns. *)
Definition tier_word (t : TierSpec.Tier) : string :=
  match t with
  | TierSpec.Low => "–ù–∏–∑–∫–∏–π"
  | TierSpec.Medium => "–°—Ä–µ–¥–Ω–∏–π"
  | TierSpec.High => "–í—ã—Å–æ–∫–∏–π"
  end%string.

(** [MainWindow.update_level_label]: the text set on the label, for the
    value of the slider. *)
Definition update_level_label (level : Z) : string :=
  (if (level <=? 2)%Z then "–ù–∏–∑–∫–∏–π (" ++ py_str level ++ "/5)"
   else if (level <=? 3)%Z then "–°—Ä–µ–¥–Ω–∏–π (" ++ py_str level ++ "/5)"
   else "–í—ã—Å–æ–∫–∏–π (" ++ py_str level ++ "/5)")%string.

(** What [main] does with the command line. *)
Inductive cli_result : Type :=
| GuiMode                                   (* neither flag is present *)
| NotEnoughArguments                        (* fewer than five words *)
| IndexErrorRaised                          (* an uncaught [IndexError] *)
| Process (input_file output_file : string) (level : Z).

(** [x in l] and [l.index(x)] on a list of strings. *)
Definition py_in (x : string) (l : list string) : bool :=
  existsb (String.eqb x) l.
Fixpoint py_index (x : string) (l : list string) : nat :=
  match l with
  | [] => 0
  | y :: l' => if String.eqb y x then 0 else S (py_index x l')
  end.

Section CommandLine.

(** [int(s)] on a string: [None] stands for its [ValueError]. *)
Variable py_int_of_string : string -> option Z.

(** Lines 661-689 of [main], up to the call of the processor: the three
    subscripts each pick the flag again; only the third is guarded, by
    [except (ValueError, IndexError)]. *)
Definition cli (argv : list string) : cli_result :=
  if py_in "--cli" argv || py_in "-c" argv then
    if (5 <=? length argv)%nat then
      let flag := (if py_in "--cli" argv then "--cli" else "-c")%string in
      let i := py_index flag argv in
      match nth_error argv (i + 1) with
      | None => IndexErrorRaised
      | Some input_file =>
          match nth_error argv (i + 2) with
          | None => IndexErrorRaised
          | Some output_file =>
              let level :=
                match nth_error argv (i + 3) with
                | None => 3%Z
                | Some s =>
                    match py_int_of_string s with
                    | Some n => n
                    | None => 3%Z
                    end
                end in
              Process input_file output_file level
          end
      end
    else NotEnoughArguments
  else GuiMode.

End CommandLine.

Section Threads.

Variable resize_at : Mat -> nat -> nat -> nat -> nat -> Pixel.
Variable warp_at : Mat -> (Q * Q * Q) * (Q * Q * Q) -> nat -> nat -> Pixel.
Variable normal_noise : Q -> nat -> nat -> nat -> nat -> Pixel.
Variable addWeighted_px : Pixel -> Q -> Pixel -> Q -> Q -> Pixel.
Variable bgr2hls : Pixel -> Pixel.
Variable hls2bgr : Pixel -> Pixel.
Variable imwrite_status : string -> Mat -> outcome bool.
(** [MediaProcessor.process_video], of which the thread only uses the
    outcome. *)
Variable process_video : string -> string -> Z -> M bool.

(** [ProcessingThread.run]: the paths passed to [finished.emit], in
    order.  Without Qt modules nothing is emitted. *)
Definition processing_thread_run (qt_modules : bool)
           (media_type input_path output_path : string) (level : Z)
  : World -> list string * World :=
  fun w =>
    let work :=
      if String.eqb media_type "image"
      then process_image resize_at warp_at normal_noise addWeighted_px
                         bgr2hls hls2bgr imwrite_status
                         input_path output_path level
      else process_video input_path output_path level in
    match work w with
    | (Return _, w') => (if qt_modules then [output_path] else [], w')
    | (Raise _, w') => (if qt_modules then [""%string] else [], w')
    end.

End Threads.

Section Assessment.

Variable Picture : Type.
Variable Image_open : string -> outcome Picture.
Variable phash : Picture -> ImageHash.

(** Lines 636-637 of [MainWindow.processing_finished]: the difference
    between the original and the exported image, and its label. *)
Definition image_risk (current_file output_path : string) : outcome (Q * string) :=
  diff <~ calculate_phash_difference Picture Image_open phash current_file output_path ;;
  let risk_level := Risk.get_risk_level diff None in
  Return (diff, risk_level).

Variable fsqrt : Q -> Q.
Variable AudioTrack : Type.
Variable VideoFileClip : string -> outcome (Analyzer.Clip AudioTrack).
Variable to_pil : Mat -> outcome Picture.
Variable load_audio : AudioTrack -> outcome (list Q).
Variable librosa_stft : list Q -> outcome (list (Q * Q)).
Variable cleanup : outcome unit.

(** Lines 644-645 of [MainWindow.processing_finished]. *)
Definition video_risk (current_file output_path : string)
  : outcome (Q * option Q * string) :=
  r <~ Analyzer.analyze_video_uniqueness fsqrt Picture AudioTrack VideoFileClip
         to_pil phash load_audio librosa_stft cleanup current_file output_path ;;
  let (phash_diff, audio_sim) := r in
  let risk_level := Risk.get_risk_level phash_diff audio_sim in
  Return (phash_diff, audio_sim, risk_level).

End Assessment.

End Shell.

(* ===================================================================== *)
(** * Concrete inputs used by the examples *)
(* ===================================================================== *)

Module Examples.

Import PHash.

(** Two 8x8 hashes that differ in their first row only. *)
Definition hash_a : ImageHash := repeat (repeat false 8) 8.
Definition hash_b : ImageHash := repeat true 8 :: repeat (repeat false 8) 7.

(** A file system with two pictures; a picture is identified with the
    hash that [phash] computes for it. *)
Definition open_demo (path : string) : outcome ImageHash :=
  if String.eqb path "a.png" then Return hash_a
  else if String.eqb path "b.png" then Return hash_b
  else Raise OSError.

Definition phash_demo (pic : ImageHash) : ImageHash := pic.

(** A 400x600 picture of one colour, stored under one path, and a
    generator whose raw words count upwards. *)
Definition solid : ImagePipeline.Mat :=
  {| ImagePipeline.rows := 400; ImagePipeline.cols := 600;
     ImagePipeline.at_ := fun _ _ => (10, 20, 30)%Z |}.

Definition demo_files : ImagePipeline.Files :=
  fun path => if String.eqb path "in.png" then Some solid else None.

(** A world whose only file is a picture of one pixel. *)
Definition dot_world : ImagePipeline.World :=
  {| ImagePipeline.files :=
       fun path => if String.eqb path "dot.png"
                   then Some {| ImagePipeline.rows := 1; ImagePipeline.cols := 1;
                                ImagePipeline.at_ := fun _ _ => (0, 0, 0)%Z |}
                   else None;
     ImagePipeline.rng := {| Rand.draws := fun n => Z.of_nat n; Rand.pos := 0 |} |}.

Definition demo_world : ImagePipeline.World :=
  {| ImagePipeline.files := demo_files;
     ImagePipeline.rng := {| Rand.draws := fun n => (Z.of_nat n * 1000003)%Z;
                             Rand.pos := 0 |} |}.

(** OpenCV's pixel arithmetic, replaced by the simplest functions of the
    right type. *)
Definition keep_at (m : ImagePipeline.Mat) (_ _ : nat) : nat -> nat -> ImagePipeline.Pixel :=
  ImagePipeline.at_ m.
Definition warp_keep (m : ImagePipeline.Mat) (_ : (Q * Q * Q) * (Q * Q * Q))
  : nat -> nat -> ImagePipeline.Pixel := ImagePipeline.at_ m.
Definition no_noise (_ : Q) (_ _ _ _ : nat) : ImagePipeline.Pixel := (0, 0, 0)%Z.
Definition weighted_first (a : ImagePipeline.Pixel) (_ : Q) (_ : ImagePipeline.Pixel)
           (_ _ : Q) : ImagePipeline.Pixel := a.
Definition same_pixel (x : ImagePipeline.Pixel) : ImagePipeline.Pixel := x.
Definition always_written (_ : string) (_ : ImagePipeline.Mat) : outcome bool :=
  Return true.

(** A second picture, and a stand-in for [phash] that tells the two
    apart by their first pixel. *)
Definition solid' : ImagePipeline.Mat :=
  {| ImagePipeline.rows := 400; ImagePipeline.cols := 600;
     ImagePipeline.at_ := fun _ _ => (11, 20, 30)%Z |}.

Definition phash_frame (m : ImagePipeline.Mat) : ImageHash :=
  let '(b, _, _) := ImagePipeline.at_ m 0 0 in
  if (b =? 10)%Z then hash_a else hash_b.

(** A rounded square root: the integer root of the argument scaled by a
    million, over a thousand. *)
Definition fsqrt_demo (x : Q) : Q :=
  Z.sqrt (Qnum x * 1000000 / Zpos (Qden x)) # 1000.

(** Three clips of five seconds whose frames can be read up to the second
    second only; an audio track is its list of samples. *)
Definition frames_of (m : ImagePipeline.Mat) (t : Q) : outcome ImagePipeline.Mat :=
  if Qle_bool t 2 then Return m else Raise OSError.

Definition clip_talk : Analyzer.Clip (list Q) :=
  {| Analyzer.duration := 5; Analyzer.get_frame := frames_of solid;
     Analyzer.audio := Some [1; 2; 3; 4] |}.
Definition clip_proc : Analyzer.Clip (list Q) :=
  {| Analyzer.duration := 5.5; Analyzer.get_frame := frames_of solid';
     Analyzer.audio := Some [1; 2; 4; 3; 9] |}.
Definition clip_silent : Analyzer.Clip (list Q) :=
  {| Analyzer.duration := 5; Analyzer.get_frame := frames_of solid;
     Analyzer.audio := None |}.
(** A clip none of whose frames can be read. *)
Definition clip_broken : Analyzer.Clip (list Q) :=
  {| Analyzer.duration := 12; Analyzer.get_frame := fun _ => Raise OSError;
     Analyzer.audio := None |}.

Definition open_clip (path : string) : outcome (Analyzer.Clip (list Q)) :=
  if String.eqb path "talk.mp4" then Return clip_talk
  else if String.eqb path "proc.mp4" then Return clip_proc
  else if String.eqb path "silent.mp4" then Return clip_silent
  else if String.eqb path "broken.mp4" then Return clip_broken
  else Raise OSError.

(** [Image.open] over the demo files. *)
Definition open_frame (path : string) : outcome ImagePipeline.Mat :=
  match demo_files path with
  | Some m => Return m
  | None => Raise OSError
  end.

Definition to_pil_demo (m : ImagePipeline.Mat) : outcome ImagePipeline.Mat := Return m.
Definition load_demo (track : list Q) : outcome (list Q) := Return track.
Definition stft_demo (samples : list Q) : outcome (list (Q * Q)) :=
  Return (map (fun x => (x, 0)) samples).
Definition cleanup_demo : outcome unit := Return tt.

(** The analyzer over these stand-ins. *)
Definition analyze_demo (original_path processed_path : string) : outcome (Q * option Q) :=
  Analyzer.analyze_video_uniqueness fsqrt_demo ImagePipeline.Mat (list Q)
    open_clip to_pil_demo phash_frame load_demo stft_demo cleanup_demo
    original_path processed_path.

End Examples.

(* ===================================================================== *)
(** * More concrete inputs *)
(* ===================================================================== *)

Module MoreExamples.

Import PHash.

(** Two hashes of two rows and sixteen columns, one the complement of
    the other, and the pictures they stand for. *)
Definition wide_a : ImageHash := repeat (repeat false 16) 2.
Definition wide_b : ImageHash := repeat (repeat true 16) 2.

Definition open_wide (path : string) : outcome ImageHash :=
  if String.eqb path "a.png" then Return wide_a
  else if String.eqb path "b.png" then Return wide_b
  else Raise OSError.

(** [int] on the few strings used below. *)
Definition int_demo (s : string) : option Z :=
  if String.eqb s "1" then Some 1%Z
  else if String.eqb s "3" then Some 3%Z
  else if String.eqb s "0" then Some 0%Z
  else None.

(** A video pipeline that always succeeds. *)
Definition video_ok (_ _ : string) (_ : Z) : ImagePipeline.M bool :=
  ImagePipeline.ret true.

(** A clip of half a second, a file system that also holds it, and an
    audio loader that always fails. *)
Definition clip_short : Analyzer.Clip (list Q) :=
  {| Analyzer.duration := 0.5; Analyzer.get_frame := Examples.frames_of Examples.solid;
     Analyzer.audio := Some [1; 2] |}.

Definition open_short (path : string) : outcome (Analyzer.Clip (list Q)) :=
  if String.eqb path "short.mp4" then Return clip_short else Examples.open_clip path.

Definition load_broken (_ : list Q) : outcome (list Q) := Raise OSError.

(** [cv2.imwrite] answering [False]. *)
Definition never_written (_ : string) (_ : ImagePipeline.Mat) : outcome bool :=
  Return false.

End MoreExamples.

(* ===================================================================== *)
(** * Properties of the risk classifier *)
(* ===================================================================== *)

Module RiskFacts.

Import Risk.

Lemma Qlt_Qle_bool_false (a b : Q) : b < a -> Qle_bool a b = false.
Proof.
  intros H. destruct (Qle_bool a b) eqn:E; [|reflexivity].
  apply Qle_bool_iff in E. exfalso. exact (Qlt_not_le _ _ H E).
Qed.

(** C1.  [get_risk_level] is a function of the phash-difference
    percentage with exact boundaries: at 45 and above it answers the
    low-risk label, from 30 inclusive up to 45 exclusive the medium-risk
    label, below 30 the high-risk label; so 45 is low, 44.999 medium,
    30 medium and 29.999 high.  The three labels are pairwise different. *)
Theorem get_risk_level_boundaries :
  (forall p a, 45 <= p -> get_risk_level p a = Low_risk) /\
  (forall p a, 30 <= p -> p < 45 -> get_risk_level p a = Medium_risk) /\
  (forall p a, p < 30 -> get_risk_level p a = High_risk) /\
  get_risk_level 45 None = Low_risk /\
  get_risk_level 44.999 None = Medium_risk /\
  get_risk_level 30 None = Medium_risk /\
  get_risk_level 29.999 None = High_risk /\
  Low_risk <> Medium_risk /\ Medium_risk <> High_risk /\ Low_risk <> High_risk.
Proof.
  split; [|split; [|split]].
  - intros p a H. unfold get_risk_level.
    apply Qle_bool_iff in H. now rewrite H.
  - intros p a H30 H45. unfold get_risk_level.
    rewrite (Qlt_Qle_bool_false _ _ H45).
    apply Qle_bool_iff in H30. now rewrite H30.
  - intros p a H. unfold get_risk_level.
    assert (H45 : p < 45) by lra.
    rewrite (Qlt_Qle_bool_false _ _ H45), (Qlt_Qle_bool_false _ _ H).
    reflexivity.
  - repeat split; try reflexivity; discriminate.
Qed.

Lemma get_risk_level_boundaries_witness :
  get_risk_level 50 None = Low_risk /\
  get_risk_level 37.5 (Some 12) = Medium_risk /\
  get_risk_level 0 None = High_risk.
Proof.
  destruct get_risk_level_boundaries as (Hlow & Hmed & Hhigh & _).
  split; [|split].
  - apply (Hlow 50 None). unfold Qle; simpl; lia.
  - apply (Hmed 37.5 (Some 12)); [unfold Qle | unfold Qlt]; simpl; lia.
  - apply (Hhigh 0 None). unfold Qlt; simpl; lia.
Defined.

(** C10.  The label depends on the phash difference only: two calls with
    the same [phash_diff] and any two values of [audio_similarity],
    given or left to its default, return the same label. *)
Theorem get_risk_level_ignores_audio :
  forall (phash_diff : Q) (audio1 audio2 : option Q),
    get_risk_level phash_diff audio1 = get_risk_level phash_diff audio2.
Proof. intros. reflexivity. Qed.

End RiskFacts.


(* ===================================================================== *)
(** * Properties of the perceptual hash engine *)
(* ===================================================================== *)

Module PHashFacts.

Import PHash.

Lemma count_nonzero_not_equal (a b : list bool) :
  count_nonzero (not_equal a b) = hamming a b.
Proof.
  revert b. induction a as [|x a IH]; intros [|y b]; simpl; try reflexivity.
  rewrite IH. destruct x, y; reflexivity.
Qed.

Lemma hamming_range (a b : list bool) :
  (0 <= hamming a b <= Z.of_nat (length a))%Z.
Proof.
  revert b. induction a as [|x a IH]; intros [|y b]; simpl length; simpl hamming;
    try lia.
  specialize (IH b). destruct (Bool.eqb x y); lia.
Qed.

Lemma hamming_same (a : list bool) : hamming a a = 0%Z.
Proof.
  induction a as [|x a IH]; simpl; [reflexivity|].
  rewrite Bool.eqb_reflx, IH. reflexivity.
Qed.

Lemma length_concat_uniform (c : nat) (h : list (list bool)) :
  forallb (fun row => (length row =? c)%nat) h = true ->
  length (concat h) = (length h * c)%nat.
Proof.
  induction h as [|row h IH]; simpl; [reflexivity|].
  intros H. apply andb_true_iff in H. destruct H as [Hrow Hrest].
  apply Nat.eqb_eq in Hrow. rewrite length_app, IH, Hrow by assumption.
  reflexivity.
Qed.

Lemma has_shape_sizes (r c : nat) (h : ImageHash) :
  has_shape r c h = true -> length h = r /\ size h = (r * c)%nat.
Proof.
  unfold has_shape, size, flatten. intros H.
  apply andb_true_iff in H. destruct H as [Hr Hc].
  apply Nat.eqb_eq in Hr. split; [assumption|].
  rewrite (length_concat_uniform c h Hc), Hr. reflexivity.
Qed.

(** On two 8x8 hashes the shared three lines give the Hamming distance
    over 64, times 100. *)
Lemma percentage_of_8x8 (h1 h2 : ImageHash) :
  has_shape 8 8 h1 = true -> has_shape 8 8 h2 = true ->
  percentage_of h1 h2 =
  Return (inject_Z (hamming (flatten h1) (flatten h2)) / inject_Z 64 * 100).
Proof.
  intros H1 H2.
  destruct (has_shape_sizes _ _ _ H1) as [L1 S1].
  destruct (has_shape_sizes _ _ _ H2) as [_ S2].
  unfold percentage_of, hash_sub. rewrite S1, S2, Nat.eqb_refl, L1.
  rewrite count_nonzero_not_equal. reflexivity.
Qed.

Lemma percentage_bounds (d : Z) :
  (0 <= d <= 64)%Z -> 0 <= inject_Z d / inject_Z 64 * 100 <= 100.
Proof.
  intros [Hlo Hhi].
  unfold Qle, Qdiv, Qmult, Qinv, inject_Z; simpl. lia.
Qed.

Lemma percentage_of_8x8_bounds (h1 h2 : ImageHash) (p : Q) :
  has_shape 8 8 h1 = true -> has_shape 8 8 h2 = true ->
  percentage_of h1 h2 = Return p -> 0 <= p <= 100.
Proof.
  intros H1 H2 E. rewrite (percentage_of_8x8 _ _ H1 H2) in E.
  injection E as <-. apply percentage_bounds.
  pose proof (hamming_range (flatten h1) (flatten h2)) as Hr.
  destruct (has_shape_sizes _ _ _ H1) as [_ S1]. unfold size in S1.
  rewrite S1 in Hr. simpl in Hr. lia.
Qed.

Section EngineFacts.

Variable Picture : Type.
Variable Image_open : string -> outcome Picture.
Variable phash : Picture -> ImageHash.

(** C8.  For two valid images, whose perceptual hashes are 8x8 bit
    arrays, [calculate_phash_difference] returns the Hamming distance of
    the two 64-bit vectors, divided by 64, times 100. *)
Theorem calculate_phash_difference_hamming :
  forall (img1_path img2_path : string) (img1 img2 : Picture),
    Image_open img1_path = Return img1 ->
    Image_open img2_path = Return img2 ->
    has_shape 8 8 (phash img1) = true ->
    has_shape 8 8 (phash img2) = true ->
    length (flatten (phash img1)) = 64%nat /\
    length (flatten (phash img2)) = 64%nat /\
    calculate_phash_difference Picture Image_open phash img1_path img2_path =
    Return (inject_Z (hamming (flatten (phash img1)) (flatten (phash img2)))
            / inject_Z 64 * 100).
Proof.
  intros p1 p2 i1 i2 O1 O2 S1 S2.
  split; [exact (proj2 (has_shape_sizes _ _ _ S1))|].
  split; [exact (proj2 (has_shape_sizes _ _ _ S2))|].
  unfold calculate_phash_difference. rewrite O1, O2.
  apply percentage_of_8x8; assumption.
Qed.

(** C7.  Comparing a valid image with itself gives a zero difference:
    the call returns, and the value it returns is 0. *)
Theorem calculate_phash_difference_self :
  forall (path : string) (img : Picture),
    Image_open path = Return img ->
    has_shape 8 8 (phash img) = true ->
    exists d, calculate_phash_difference Picture Image_open phash path path = Return d
              /\ d == 0.
Proof.
  intros path img O S.
  unfold calculate_phash_difference. rewrite O.
  rewrite (percentage_of_8x8 _ _ S S), hamming_same.
  eexists. split; [reflexivity|]. reflexivity.
Qed.

End EngineFacts.

Lemma calculate_phash_difference_hamming_witness :
  calculate_phash_difference _ Examples.open_demo Examples.phash_demo "a.png" "b.png"
  = Return (inject_Z 8 / inject_Z 64 * 100).
Proof.
  apply (calculate_phash_difference_hamming
           _ Examples.open_demo Examples.phash_demo "a.png" "b.png"
           Examples.hash_a Examples.hash_b); reflexivity.
Defined.

Lemma calculate_phash_difference_self_witness :
  exists d, calculate_phash_difference _ Examples.open_demo Examples.phash_demo
              "b.png" "b.png" = Return d /\ d == 0.
Proof.
  apply (calculate_phash_difference_self
           _ Examples.open_demo Examples.phash_demo "b.png" Examples.hash_b);
    reflexivity.
Defined.

End PHashFacts.

(* ===================================================================== *)
(** * Properties of the random source *)
(* ===================================================================== *)

Module RandFacts.

Import Rand.

Lemma random_range (s : state) : 0 <= fst (random s) /\ fst (random s) < 1.
Proof.
  unfold random, next. cbn [fst].
  pose proof (Z.mod_pos_bound (draws s (pos s)) (Zpos two53) eq_refl) as [Hlo Hhi].
  unfold Qle, Qlt. cbn [Qnum Qden]. lia.
Qed.

Lemma uniform_range (a b : Q) (s : state) :
  a <= b -> a <= fst (uniform a b s) /\ fst (uniform a b s) <= b.
Proof.
  intros Hab. unfold uniform.
  destruct (random s) as [u s'] eqn:E. cbn [fst].
  pose proof (random_range s) as [Hlo Hhi]. rewrite E in Hlo, Hhi. cbn [fst] in Hlo, Hhi.
  split; nra.
Qed.

Lemma randint_range (a b : Z) (s : state) :
  (a <= b)%Z ->
  exists x, randint a b s = (Return x, snd (next s)) /\ (a <= x <= b)%Z.
Proof.
  intros Hab. unfold randint.
  destruct (0 <? b + 1 - a)%Z eqn:E; [|apply Z.ltb_ge in E; lia].
  unfold next. eexists. split; [reflexivity|].
  pose proof (Z.mod_pos_bound (draws s (pos s)) (b + 1 - a)) as Hm. lia.
Qed.

End RandFacts.

(* ===================================================================== *)
(** * Properties of the tier tables *)
(* ===================================================================== *)

Module TierFacts.

Import ImagePipeline VideoPipeline TierSpec.

Lemma bind_return {A B} (c : M A) (k : A -> M B) (w w' : World) (a : A) :
  c w = (Return a, w') -> bind c k w = k a w'.
Proof. intros E. unfold bind. rewrite E. reflexivity. Qed.

Lemma bind_raise {A B} (c : M A) (k : A -> M B) (w w' : World) (e : exn) :
  c w = (Raise e, w') -> bind c k w = (Raise e, w').
Proof. intros E. unfold bind. rewrite E. reflexivity. Qed.

Lemma uniform_spec (a b : Q) (w : World) :
  a <= b ->
  exists x w', uniform a b w = (Return x, w') /\ files w' = files w /\ between a x b.
Proof.
  intros Hab. unfold uniform.
  pose proof (RandFacts.uniform_range a b (rng w) Hab) as Hr.
  destruct (Rand.uniform a b (rng w)) as [x s]. cbn [fst] in Hr.
  exists x. eexists. split; [reflexivity|]. split; [reflexivity|exact Hr].
Qed.

Lemma randint_spec (a b : Z) (w : World) :
  (a <= b)%Z ->
  exists x w', randint a b w = (Return x, w') /\ files w' = files w /\ (a <= x <= b)%Z.
Proof.
  intros Hab. unfold randint.
  destruct (RandFacts.randint_range a b (rng w) Hab) as (x & E & Hr).
  rewrite E. exists x. eexists. split; [reflexivity|]. split; [reflexivity|exact Hr].
Qed.

(** One draw of [random.uniform] at the head of a computation. *)
Ltac draw x Hx :=
  match goal with
  | |- context [bind (uniform ?a ?b) ?k ?w] =>
      let w' := fresh "w" in
      let E := fresh "E" in
      let Hf := fresh "Hf" in
      destruct (uniform_spec a b w) as (x & w' & E & Hf & Hx);
      [ unfold Qle; simpl; lia
      | rewrite (bind_return _ k w w' x E); cbv beta; clear E ]
  end.

Ltac five_draws :=
  let cp := fresh "cp" in let sf := fresh "sf" in let h := fresh "h" in
  let s := fresh "s" in let l := fresh "l" in
  let Hcp := fresh "Hcp" in let Hsf := fresh "Hsf" in let Hh := fresh "Hh" in
  let Hs := fresh "Hs" in let Hl := fresh "Hl" in
  draw cp Hcp; draw sf Hsf; draw h Hh; draw s Hs; draw l Hl;
  eexists; eexists; split; [reflexivity|]; split; [congruence|];
  unfold within; cbn; auto 10.

Lemma image_parameters_in_row (level : Z) (t : Tier) (w : World) :
  tier_of_level level = Some t ->
  exists p w', image_parameters level w = (Return p, w') /\
               files w' = files w /\ within (image_table t) p.
Proof.
  unfold tier_of_level, image_parameters. intros Ht.
  destruct (level =? 1)%Z.
  - injection Ht as <-. five_draws.
  - destruct (level =? 2)%Z.
    + injection Ht as <-. five_draws.
    + destruct (3 <=? level)%Z; [|discriminate]. injection Ht as <-. five_draws.
Qed.

Lemma video_parameters_in_row (level : Z) (t : Tier) :
  tier_of_level level = Some t -> video_parameters level = video_table t.
Proof.
  unfold tier_of_level, video_parameters.
  destruct (level =? 1)%Z; [intros [= <-]; reflexivity|].
  destruct (level =? 2)%Z; [intros [= <-]; reflexivity|].
  destruct (3 <=? level)%Z; [intros [= <-]; reflexivity|discriminate].
Qed.

Lemma high_levels (level : Z) :
  (3 <= level)%Z -> (level =? 1)%Z = false /\ (level =? 2)%Z = false.
Proof. intros H. split; apply Z.eqb_neq; lia. Qed.

(** C5.  The integer level is reduced to three tiers.  Level 1 draws the
    image parameters from the low row and takes the low video row,
    level 2 the medium rows, and every level from 3 upwards the high
    rows: the image parameters drawn and the video parameters chosen at
    such a level are those of level 3, so that 4 and 5 are not told
    apart from 3.  The three rows differ from one another. *)
Theorem levels_collapse_to_three_tiers :
  (forall level t,
      tier_of_level level = Some t ->
      (forall w, exists p w',
            image_parameters level w = (Return p, w') /\ within (image_table t) p) /\
      video_parameters level = video_table t) /\
  tier_of_level 1 = Some Low /\
  tier_of_level 2 = Some Medium /\
  (forall level, (3 <= level)%Z ->
                 tier_of_level level = Some High /\
                 image_parameters level = image_parameters 3 /\
                 video_parameters level = video_parameters 3) /\
  (video_table Low <> video_table Medium /\
   video_table Medium <> video_table High /\
   video_table Low <> video_table High) /\
  (noise (image_table Low) <> noise (image_table Medium) /\
   noise (image_table Medium) <> noise (image_table High) /\
   noise (image_table Low) <> noise (image_table High)).
Proof.
  split; [|split; [reflexivity|split; [reflexivity|split; [|split]]]].
  - intros level t Ht. split.
    + intros w. destruct (image_parameters_in_row level t w Ht) as (p & w' & E & _ & Hw).
      exists p, w'. split; assumption.
    + apply video_parameters_in_row; assumption.
  - intros level H. destruct (high_levels level H) as [H1 H2].
    unfold tier_of_level, image_parameters, video_parameters.
    rewrite H1, H2. apply Z.leb_le in H. rewrite H. repeat split.
  - repeat split; discriminate.
  - repeat split; discriminate.
Qed.

Lemma levels_collapse_to_three_tiers_witness :
  (exists p w', image_parameters 5 Examples.demo_world = (Return p, w') /\
                within (image_table High) p) /\
  video_parameters 5 = video_table High /\
  image_parameters 4 = image_parameters 3.
Proof.
  destruct levels_collapse_to_three_tiers as (Hrow & _ & _ & Hhigh & _).
  destruct (Hrow 5%Z High eq_refl) as [Himg Hvid].
  split; [exact (Himg Examples.demo_world)|]. split; [exact Hvid|].
  apply (Hhigh 4%Z). lia.
Defined.

End TierFacts.

(* ===================================================================== *)
(** * Properties of the image pipeline *)
(* ===================================================================== *)

Module ImageFacts.

Import ImagePipeline TierSpec TierFacts.

Lemma py_int_range (q : Q) :
  0 <= q -> (0 <= py_int q)%Z /\ inject_Z (py_int q) <= q.
Proof.
  destruct q as [n d]. unfold py_int, Qle, inject_Z. cbn [Qnum Qden].
  intros H. assert (Hn : (0 <= n)%Z) by lia.
  rewrite Z.quot_div_nonneg by lia.
  split.
  - apply Z.div_pos; lia.
  - pose proof (Z.mul_div_le n (Zpos d) eq_refl). lia.
Qed.

Lemma py_int_ge_1 (q : Q) : 1 <= q -> (1 <= py_int q)%Z.
Proof.
  destruct q as [n d]. unfold py_int, Qle. cbn [Qnum Qden].
  intros H. rewrite Z.quot_div_nonneg by lia.
  apply Z.div_le_lower_bound; lia.
Qed.

Lemma crop_extent (W : Z) (cp : Q) :
  (0 <= W)%Z -> 0 <= cp -> cp <= 1 ->
  (0 <= py_int (inject_Z W * (1 - cp)) <= W)%Z.
Proof.
  intros HW H0 H1.
  assert (HWq : 0 <= inject_Z W) by (rewrite Zle_Qle in HW; exact HW).
  assert (Hq : 0 <= inject_Z W * (1 - cp)) by nra.
  destruct (py_int_range _ Hq) as [Hlo Hhi].
  split; [assumption|].
  rewrite Zle_Qle. nra.
Qed.

Lemma crop_extent_positive (W : Z) (cp : Q) :
  (2 <= W)%Z -> 0 <= cp -> cp <= 0.06 ->
  (1 <= py_int (inject_Z W * (1 - cp)))%Z.
Proof.
  intros HW H0 H1. apply py_int_ge_1.
  assert (HWq : 2 <= inject_Z W) by (rewrite Zle_Qle in HW; exact HW).
  nra.
Qed.

(** The crop rectangle is always drawn, and always inside the source. *)
Lemma sample_crop_box_inside (W H : Z) (cp : Q) (w : World) :
  (0 <= W)%Z -> (0 <= H)%Z -> 0 <= cp -> cp <= 1 ->
  exists box w',
    sample_crop_box W H cp w = (Return box, w') /\
    files w' = files w /\
    inside box W H /\
    crop_w box = py_int (inject_Z W * (1 - cp)) /\
    crop_h box = py_int (inject_Z H * (1 - cp)).
Proof.
  intros HW HH H0 H1. unfold sample_crop_box.
  pose proof (crop_extent W cp HW H0 H1) as Hcw.
  pose proof (crop_extent H cp HH H0 H1) as Hch.
  destruct (randint_spec 0 (W - py_int (inject_Z W * (1 - cp))) w)
    as (sx & w1 & E1 & F1 & R1); [lia|].
  rewrite (bind_return _ _ _ _ _ E1).
  destruct (randint_spec 0 (H - py_int (inject_Z H * (1 - cp))) w1)
    as (sy & w2 & E2 & F2 & R2); [lia|].
  rewrite (bind_return _ _ _ _ _ E2).
  eexists. exists w2. split; [reflexivity|].
  split; [congruence|]. split; [|split; reflexivity].
  unfold inside. cbn. lia.
Qed.

Lemma slice_bound_inside (n : nat) (i : Z) :
  (0 <= i <= Z.of_nat n)%Z -> slice_bound n i = Z.to_nat i.
Proof.
  intros H. unfold slice_bound.
  destruct (i <? 0)%Z eqn:E; [apply Z.ltb_lt in E; lia|].
  f_equal. lia.
Qed.

(** A rectangle inside the image is cut out as it is: the slice has the
    extent of the rectangle. *)
Lemma slice2_inside (img : Mat) (box : CropBox) :
  inside box (Z.of_nat (cols img)) (Z.of_nat (rows img)) ->
  let cut := slice2 img (start_y box) (start_y box + crop_h box)
                        (start_x box) (start_x box + crop_w box) in
  rows cut = Z.to_nat (crop_h box) /\ cols cut = Z.to_nat (crop_w box).
Proof.
  unfold inside. intros Hin. cbn zeta. unfold slice2. cbn [rows cols].
  rewrite !slice_bound_inside by lia. lia.
Qed.

(** At every level, also outside 1..5, the parameters are drawn and lie
    in one of the three rows. *)
Lemma image_parameters_total (level : Z) (w : World) :
  exists t p w', image_parameters level w = (Return p, w') /\
                 files w' = files w /\ within (image_table t) p.
Proof.
  destruct (level =? 1)%Z eqn:E1.
  - exists Low. apply image_parameters_in_row.
    unfold tier_of_level. now rewrite E1.
  - destruct (level =? 2)%Z eqn:E2.
    + exists Medium. apply image_parameters_in_row.
      unfold tier_of_level. now rewrite E1, E2.
    + exists High.
      assert (E : image_parameters level = image_parameters 3).
      { unfold image_parameters. now rewrite E1, E2. }
      rewrite E. apply image_parameters_in_row. reflexivity.
Qed.

Lemma crop_percent_bounds (t : Tier) (p : ImageParams) :
  within (image_table t) p -> 0 <= crop_percent p /\ crop_percent p <= 0.06.
Proof.
  intros (Hc & _). destruct Hc as [Hlo Hhi].
  destruct t; cbn in Hlo, Hhi; split; lra.
Qed.

Section PipelineFacts.

Variable resize_at : Mat -> nat -> nat -> nat -> nat -> Pixel.
Variable warp_at : Mat -> (Q * Q * Q) * (Q * Q * Q) -> nat -> nat -> Pixel.
Variable normal_noise : Q -> nat -> nat -> nat -> nat -> Pixel.
Variable addWeighted_px : Pixel -> Q -> Pixel -> Q -> Q -> Pixel.
Variable bgr2hls : Pixel -> Pixel.
Variable hls2bgr : Pixel -> Pixel.
Variable imwrite_status : string -> Mat -> outcome bool.

Abbreviation transform' :=
  (transform resize_at warp_at normal_noise addWeighted_px bgr2hls hls2bgr).
Abbreviation process_image' :=
  (process_image resize_at warp_at normal_noise addWeighted_px bgr2hls hls2bgr
                 imwrite_status).

Lemma cv2_resize_ok (src : Mat) (w h : Z) (wd : World) :
  empty src = false -> (0 < w)%Z -> (0 < h)%Z ->
  exists out, cv2_resize resize_at src w h wd = (Return out, wd) /\
              rows out = Z.to_nat h /\ cols out = Z.to_nat w.
Proof.
  intros He Hw Hh. unfold cv2_resize. rewrite He.
  replace (w <=? 0)%Z with false by (symmetry; apply Z.leb_gt; lia).
  replace (h <=? 0)%Z with false by (symmetry; apply Z.leb_gt; lia).
  cbn. eexists. split; [reflexivity|]. split; reflexivity.
Qed.

Lemma cv2_resize_empty (src : Mat) (w h : Z) (wd : World) :
  empty src = true -> cv2_resize resize_at src w h wd = (Raise CvError, wd).
Proof. intros He. unfold cv2_resize. rewrite He. reflexivity. Qed.

Lemma cv2_warpAffine_ok (src : Mat) m (w h : Z) (wd : World) :
  empty src = false -> (0 < w)%Z -> (0 < h)%Z ->
  exists out, cv2_warpAffine warp_at src m w h wd = (Return out, wd) /\
              rows out = Z.to_nat h /\ cols out = Z.to_nat w.
Proof.
  intros He Hw Hh. unfold cv2_warpAffine. rewrite He.
  replace (w <=? 0)%Z with false by (symmetry; apply Z.leb_gt; lia).
  replace (h <=? 0)%Z with false by (symmetry; apply Z.leb_gt; lia).
  cbn. eexists. split; [reflexivity|]. split; reflexivity.
Qed.

Lemma cv2_addWeighted_ok (a b : Mat) alpha beta gamma (wd : World) :
  rows b = rows a -> cols b = cols a ->
  exists out, cv2_addWeighted addWeighted_px a alpha b beta gamma wd = (Return out, wd) /\
              rows out = rows a /\ cols out = cols a.
Proof.
  intros Hr Hc. unfold cv2_addWeighted, same_shape.
  rewrite Hr, Hc, !Nat.eqb_refl. cbn.
  eexists. split; [reflexivity|]. split; reflexivity.
Qed.

Lemma cv2_cvtColor_ok (src : Mat) conv (wd : World) :
  empty src = false ->
  exists out, cv2_cvtColor src conv wd = (Return out, wd) /\
              rows out = rows src /\ cols out = cols src.
Proof.
  intros He. unfold cv2_cvtColor. rewrite He.
  eexists. split; [reflexivity|]. split; reflexivity.
Qed.

Lemma not_empty (m : Mat) : (0 < rows m)%nat -> (0 < cols m)%nat -> empty m = false.
Proof.
  intros Hr Hc. unfold empty.
  destruct (rows m); [lia|]. destruct (cols m); [lia|]. reflexivity.
Qed.

(** What [transform] does on an image: the parameters and the rectangle
    are drawn, the rectangle lies inside the image and is cut out as it
    is; then either the rectangle is empty and [cv2.resize] raises, or
    the result has the shape of the source. *)
Lemma transform_outcome (img : Mat) (level : Z) (w : World) :
  let W := Z.of_nat (cols img) in
  let H := Z.of_nat (rows img) in
  exists p w1 box w2,
    image_parameters level w = (Return p, w1) /\
    sample_crop_box W H (crop_percent p) w1 = (Return box, w2) /\
    files w2 = files w /\
    crop_percent p <= 0.06 /\ 0 <= crop_percent p /\
    crop_w box = py_int (inject_Z W * (1 - crop_percent p)) /\
    crop_h box = py_int (inject_Z H * (1 - crop_percent p)) /\
    inside box W H /\
    (((crop_w box <= 0)%Z \/ (crop_h box <= 0)%Z) /\
     transform' img level w = (Raise CvError, w2)
     \/
     (0 < crop_w box)%Z /\ (0 < crop_h box)%Z /\
     exists out, transform' img level w = (Return out, w2) /\
                 rows out = rows img /\ cols out = cols img).
Proof.
  intros W H.
  destruct (image_parameters_total level w) as (t & p & w1 & E1 & F1 & Hrow).
  destruct (crop_percent_bounds t p Hrow) as [Hcp0 Hcp1].
  destruct (sample_crop_box_inside W H (crop_percent p) w1)
    as (box & w2 & E2 & F2 & Hin & Hcw & Hch); try (unfold W, H; lia); try lra.
  exists p, w1, box, w2.
  repeat (split; [first [assumption | congruence]|]).
  pose proof (slice2_inside img box Hin) as Hcut. cbn zeta in Hcut.
  destruct Hcut as [Hrows Hcols].
  unfold transform. fold W H.
  rewrite (bind_return _ _ _ _ _ E1), (bind_return _ _ _ _ _ E2).
  set (cut := slice2 img (start_y box) (start_y box + crop_h box)
                     (start_x box) (start_x box + crop_w box)) in *.
  destruct (Z_le_gt_dec (crop_w box) 0) as [Hw0|Hw0];
    [|destruct (Z_le_gt_dec (crop_h box) 0) as [Hh0|Hh0]].
  - left. split; [left; assumption|].
    apply bind_raise, cv2_resize_empty. unfold empty.
    rewrite Hcols. replace (Z.to_nat (crop_w box)) with 0%nat by lia.
    apply orb_true_r.
  - left. split; [right; assumption|].
    apply bind_raise, cv2_resize_empty. unfold empty.
    rewrite Hrows. replace (Z.to_nat (crop_h box)) with 0%nat by lia.
    reflexivity.
  - right. split; [lia|]. split; [lia|].
    unfold inside in Hin.
    assert (HW : (0 < W)%Z) by lia. assert (HH : (0 < H)%Z) by lia.
    destruct (cv2_resize_ok cut W H w2) as (i1 & R1 & Hr1 & Hc1);
      [apply not_empty; lia | lia | lia |].
    rewrite (bind_return _ _ _ _ _ R1).
    destruct (cv2_warpAffine_ok i1
                (getRotationMatrix2D_angle0 ((W / 2)%Z, (H / 2)%Z) (scale_factor p))
                W H w2) as (i2 & R2 & Hr2 & Hc2);
      [apply not_empty; lia | lia | lia |].
    rewrite (bind_return _ _ _ _ _ R2).
    destruct (cv2_addWeighted_ok i2
                (np_random_normal normal_noise (noise_opacity p * 255) (rows i2) (cols i2))
                1 (noise_opacity p) 0 w2) as (i3 & R3 & Hr3 & Hc3);
      [reflexivity | reflexivity |].
    rewrite (bind_return _ _ _ _ _ R3).
    destruct (cv2_cvtColor_ok i3 bgr2hls w2) as (i4 & R4 & Hr4 & Hc4);
      [apply not_empty; lia|].
    rewrite (bind_return _ _ _ _ _ R4).
    destruct (cv2_cvtColor_ok (shift_hls i4 p) hls2bgr w2) as (i5 & R5 & Hr5 & Hc5);
      [apply not_empty; cbn; lia|].
    exists i5. split; [exact R5|].
    cbn in Hr5, Hc5. unfold W, H in *. lia.
Qed.

(** C9.  For an image that [process_image] reads, the crop rectangle is
    drawn, lies inside the source (non-negative corner and extent, right
    and bottom edges within the width and height) and is cut out at
    exactly that extent; whenever the transformation returns, its result
    has the rows and columns of the source; and it does return for every
    source of at least 2x2 pixels, in which case a successful
    [cv2.imwrite] stores that result under the output path and the call
    returns [True]. *)
Theorem crop_inside_and_size_kept
        (input_path output_path : string) (level : Z) (w : World) (img : Mat) :
  files w input_path = Some img ->
  let W := Z.of_nat (cols img) in
  let H := Z.of_nat (rows img) in
  exists p w1 box w2,
    image_parameters level w = (Return p, w1) /\
    sample_crop_box W H (crop_percent p) w1 = (Return box, w2) /\
    inside box W H /\
    (let cut := slice2 img (start_y box) (start_y box + crop_h box)
                           (start_x box) (start_x box + crop_w box) in
     rows cut = Z.to_nat (crop_h box) /\ cols cut = Z.to_nat (crop_w box)) /\
    (forall out w', transform' img level w = (Return out, w') ->
                    rows out = rows img /\ cols out = cols img) /\
    ((2 <= rows img)%nat -> (2 <= cols img)%nat ->
     exists out,
       transform' img level w = (Return out, w2) /\
       rows out = rows img /\ cols out = cols img /\
       (imwrite_status output_path out = Return true ->
        exists w', process_image' input_path output_path level w = (Return true, w') /\
                   files w' output_path = Some out)).
Proof.
  intros Hread W H.
  destruct (transform_outcome img level w)
    as (p & w1 & box & w2 & E1 & E2 & F2 & Hcp1 & Hcp0 & Hcw & Hch & Hin & Hcases).
  fold W H in E2, Hcw, Hch, Hin.
  exists p, w1, box, w2.
  split; [exact E1|]. split; [exact E2|]. split; [exact Hin|].
  split; [exact (slice2_inside img box Hin)|]. split.
  - intros out w' E.
    destruct Hcases as [[_ Hraise] | (_ & _ & out' & Hret & Hr & Hc)].
    + rewrite Hraise in E. discriminate.
    + rewrite Hret in E. injection E as <- _. split; assumption.
  - intros Hrows Hcols.
    destruct Hcases as [[Hempty Hraise] | (_ & _ & out & Hret & Hr & Hc)].
    + exfalso.
      pose proof (crop_extent_positive W (crop_percent p)) as Pw.
      pose proof (crop_extent_positive H (crop_percent p)) as Ph.
      unfold W, H in *. destruct Hempty; [specialize (Pw ltac:(lia) Hcp0 Hcp1)
                                        | specialize (Ph ltac:(lia) Hcp0 Hcp1)]; lia.
    + exists out. repeat (split; [assumption|]).
      intros Hwrite. unfold process_image.
      rewrite (bind_return _ _ w w (Some img)) by (unfold cv2_imread; now rewrite Hread).
      rewrite (bind_return _ _ _ _ _ Hret).
      unfold bind at 1. unfold cv2_imwrite. rewrite Hwrite.
      eexists. split; [reflexivity|].
      cbn. unfold write_file. now rewrite String.eqb_refl.
Qed.

(** C3.  When the input path cannot be read or decoded, so that
    [cv2.imread] gives [None], [process_image] raises; it does not
    return [True] or any other value, and it writes nothing. *)
Theorem process_image_unreadable
        (input_path output_path : string) (level : Z) (w : World) :
  files w input_path = None ->
  process_image' input_path output_path level w = (Raise AttributeError, w) /\
  succeeded (fst (process_image' input_path output_path level w)) = false /\
  forall b w', process_image' input_path output_path level w <> (Return b, w').
Proof.
  intros Hread.
  assert (E : process_image' input_path output_path level w = (Raise AttributeError, w)).
  { unfold process_image.
    rewrite (bind_return _ _ w w None) by (unfold cv2_imread; now rewrite Hread).
    reflexivity. }
  rewrite E. split; [reflexivity|]. split; [reflexivity|].
  intros b w'. discriminate.
Qed.

End PipelineFacts.

Lemma crop_inside_and_size_kept_witness :
  exists out w',
    process_image Examples.keep_at Examples.warp_keep Examples.no_noise
                  Examples.weighted_first Examples.same_pixel Examples.same_pixel
                  Examples.always_written "in.png" "out.png" 3 Examples.demo_world
    = (Return true, w') /\
    files w' "out.png"%string = Some out /\ rows out = 400%nat /\ cols out = 600%nat.
Proof.
  destruct (crop_inside_and_size_kept
              Examples.keep_at Examples.warp_keep Examples.no_noise
              Examples.weighted_first Examples.same_pixel Examples.same_pixel
              Examples.always_written "in.png" "out.png" 3 Examples.demo_world
              Examples.solid eq_refl)
    as (p & w1 & box & w2 & _ & _ & _ & _ & _ & Hbig).
  destruct Hbig as (out & _ & Hr & Hc & Hwrite); [cbn; lia | cbn; lia |].
  destruct (Hwrite eq_refl) as (w' & E & F).
  exists out, w'. repeat split; assumption.
Defined.

(** A source of a single pixel: the rectangle has no extent, and
    [cv2.resize] raises on the empty slice, so that no output exists. *)
Example process_image_single_pixel :
  fst (process_image Examples.keep_at Examples.warp_keep Examples.no_noise
                     Examples.weighted_first Examples.same_pixel Examples.same_pixel
                     Examples.always_written "dot.png" "out.png" 3
                     Examples.dot_world)
  = Raise CvError.
Proof. vm_compute. reflexivity. Qed.

Lemma process_image_unreadable_witness :
  process_image Examples.keep_at Examples.warp_keep Examples.no_noise
                Examples.weighted_first Examples.same_pixel Examples.same_pixel
                Examples.always_written "missing.png" "out.png" 3 Examples.demo_world
  = (Raise AttributeError, Examples.demo_world).
Proof.
  apply (process_image_unreadable
           Examples.keep_at Examples.warp_keep Examples.no_noise
           Examples.weighted_first Examples.same_pixel Examples.same_pixel
           Examples.always_written "missing.png" "out.png" 3 Examples.demo_world).
  reflexivity.
Defined.

End ImageFacts.

(* ===================================================================== *)
(** * Properties of the analyzer *)
(* ===================================================================== *)

Module AnalyzerFacts.

Import PHash Analyzer.

Lemma Qsum_bounds (lo hi : Q) (l : list Q) :
  Forall (fun x => lo <= x /\ x <= hi) l ->
  inject_Z (Z.of_nat (length l)) * lo <= Qsum l /\
  Qsum l <= inject_Z (Z.of_nat (length l)) * hi.
Proof.
  induction 1 as [|x l [Hlo Hhi] _ IH].
  - change (Qsum []) with 0.
    change (inject_Z (Z.of_nat (@length Q []))) with 0. split; lra.
  - change (Qsum (x :: l)) with (x + Qsum l).
    replace (length (x :: l)) with (S (length l)) by reflexivity.
    rewrite Nat2Z.inj_succ. unfold Z.succ. rewrite inject_Z_plus.
    change (inject_Z 1) with 1. destruct IH as [IH1 IH2]. split; nra.
Qed.

(** The mean of a non-empty list lies between any two bounds of its
    entries. *)
Lemma np_mean_bounds (lo hi : Q) (l : list Q) :
  l <> [] -> Forall (fun x => lo <= x /\ x <= hi) l ->
  lo <= np_mean l /\ np_mean l <= hi.
Proof.
  intros Hne Hall. destruct (Qsum_bounds lo hi l Hall) as [H1 H2].
  unfold np_mean.
  assert (Hn : 0 < inject_Z (Z.of_nat (length l))).
  { change 0 with (inject_Z 0). rewrite <- Zlt_Qlt.
    destruct l; [congruence|]. simpl length. lia. }
  split.
  - apply Qle_shift_div_l; [assumption|]. lra.
  - apply Qle_shift_div_r; [assumption|]. lra.
Qed.

Lemma dot_nonneg (u v : list Q) :
  Forall (fun x => 0 <= x) u -> Forall (fun x => 0 <= x) v -> 0 <= dot u v.
Proof.
  intros Hu. revert v. induction Hu as [|x u Hx _ IH]; intros v Hv; simpl.
  - lra.
  - destruct Hv as [|y v Hy Hv]; [lra|]. specialize (IH v Hv). nra.
Qed.

Lemma py_max0_range (x : fval) :
  (forall q, x = Fin q -> q <= 100) -> 0 <= py_max0 x /\ py_max0 x <= 100.
Proof.
  intros H. destruct x as [q|]; simpl; [|split; lra].
  specialize (H q eq_refl). unfold py_max.
  destruct (Qlt_le_dec 0 q); split; lra.
Qed.

Lemma np_clip_range (x lo hi : Q) :
  lo <= hi -> lo <= ImagePipeline.np_clip x lo hi /\ ImagePipeline.np_clip x lo hi <= hi.
Proof.
  intros H. unfold ImagePipeline.np_clip. split.
  - apply Q.min_glb; [apply Q.le_max_r|assumption].
  - apply Q.le_min_r.
Qed.

Lemma np_clip_le (x lo hi b : Q) :
  x <= b -> lo <= b -> ImagePipeline.np_clip x lo hi <= b.
Proof.
  intros Hx Hlo. unfold ImagePipeline.np_clip.
  apply Qle_trans with (Qmax x lo); [apply Q.le_min_l|].
  apply Q.max_lub; assumption.
Qed.

Section AnalysisFacts.

Variable fsqrt : Q -> Q.
Variable Picture : Type.
Variable AudioTrack : Type.
Variable VideoFileClip : string -> outcome (Clip AudioTrack).
Variable to_pil : ImagePipeline.Mat -> outcome Picture.
Variable phash : Picture -> ImageHash.
Variable load_audio : AudioTrack -> outcome (list Q).
Variable librosa_stft : list Q -> outcome (list (Q * Q)).
Variable cleanup : outcome unit.

Abbreviation sample' := (sample Picture AudioTrack to_pil phash).
Abbreviation keyframe_loop' := (keyframe_loop Picture AudioTrack to_pil phash).
Abbreviation successful' := (successful_samples Picture AudioTrack to_pil phash).
Abbreviation audio_branch' :=
  (audio_branch fsqrt AudioTrack load_audio librosa_stft cleanup).
Abbreviation analyze' :=
  (analyze_video_uniqueness fsqrt Picture AudioTrack VideoFileClip to_pil phash
                            load_audio librosa_stft cleanup).

(** The loop appends exactly the successful samples to its accumulator. *)
Lemma keyframe_loop_successful (a b : Clip AudioTrack) (times acc : list Q) :
  keyframe_loop' a b times acc = acc ++ successful' a b times.
Proof.
  revert acc. induction times as [|t times IH]; intros acc; simpl.
  - now rewrite app_nil_r.
  - unfold successful_samples in *. simpl.
    destruct (sample' a b t) as [p|e]; rewrite IH; simpl.
    + now rewrite <- app_assoc.
    + reflexivity.
Qed.

Lemma successful_none (a b : Clip AudioTrack) (times : list Q) :
  (forall t, In t times -> succeeded (sample' a b t) = false) ->
  successful' a b times = [].
Proof.
  induction times as [|t times IH]; intros H; [reflexivity|].
  unfold successful_samples in *. simpl.
  pose proof (H t (or_introl eq_refl)) as Ht.
  destruct (sample' a b t); [discriminate|]. simpl.
  apply IH. intros t' Hin. apply H. now right.
Qed.

Lemma np_linspace0_returns (stop : Q) (num : Z) :
  (0 <= num)%Z ->
  exists times, np_linspace0 stop num = Return times /\ length times = Z.to_nat num.
Proof.
  intros H. unfold np_linspace0.
  destruct (num <? 0)%Z eqn:E; [apply Z.ltb_lt in E; lia|].
  destruct (num =? 0)%Z eqn:E0.
  - apply Z.eqb_eq in E0. subst. eexists. split; reflexivity.
  - destruct (num =? 1)%Z eqn:E1.
    + apply Z.eqb_eq in E1. subst. eexists. split; reflexivity.
    + eexists. split; [reflexivity|]. now rewrite length_map, length_seq.
Qed.

Lemma py_min_nonneg (x y : Q) : 0 <= x -> 0 <= y -> 0 <= py_min x y.
Proof. intros Hx Hy. unfold py_min. destruct (Qlt_le_dec y x); assumption. Qed.

(** The value the analyzer computes for the first component, from the
    successful samples. *)
Lemma analyze_returns (original_path processed_path : string) (a b : Clip AudioTrack) :
  VideoFileClip original_path = Return a ->
  VideoFileClip processed_path = Return b ->
  0 <= duration a -> 0 <= duration b ->
  let d := py_min (duration a) (duration b) in
  exists times,
    np_linspace0 d (Z.min 10 (ImagePipeline.py_int d)) = Return times /\
    (length times <= 10)%nat /\
    analyze' original_path processed_path =
    Return (match successful' a b times with
            | [] => 0
            | _ :: _ => np_mean (successful' a b times)
            end, audio_branch' a b).
Proof.
  intros Ha Hb Da Db d.
  assert (Hd : 0 <= d) by (apply py_min_nonneg; assumption).
  destruct (ImageFacts.py_int_range d Hd) as [Hint _].
  destruct (np_linspace0_returns d (Z.min 10 (ImagePipeline.py_int d))) as (times & E & L);
    [lia|].
  exists times. split; [exact E|]. split; [lia|].
  unfold analyze_video_uniqueness. rewrite Ha, Hb. cbn [and_then].
  fold d. rewrite E. cbn [and_then].
  rewrite keyframe_loop_successful. reflexivity.
Qed.

Lemma analyze_inversion (original_path processed_path : string) (avg : Q) (aud : option Q) :
  analyze' original_path processed_path = Return (avg, aud) ->
  exists a b times,
    VideoFileClip original_path = Return a /\
    VideoFileClip processed_path = Return b /\
    avg = match successful' a b times with
          | [] => 0
          | _ :: _ => np_mean (successful' a b times)
          end /\
    aud = audio_branch' a b.
Proof.
  unfold analyze_video_uniqueness.
  destruct (VideoFileClip original_path) as [a|]; [|discriminate].
  destruct (VideoFileClip processed_path) as [b|]; [|discriminate].
  cbn [and_then].
  destruct (np_linspace0 _ _) as [times|]; [|discriminate].
  cbn [and_then]. rewrite keyframe_loop_successful. cbn [app].
  intros [= <- <-]. exists a, b, times. repeat split.
Qed.

(** Without an audio track on either side the audio block is not
    entered, and the variable keeps its initial value, the number 0. *)
Lemma audio_branch_without_track (a b : Clip AudioTrack) :
  audio a = None \/ audio b = None -> audio_branch' a b = Some 0.
Proof.
  unfold audio_branch. intros [H|H]; rewrite H; [reflexivity|].
  destruct (audio a); reflexivity.
Qed.

(** C2 (amended).  When at least one of the two clips has no audio
    track, the second component of the result is the number 0: every
    result the analyzer returns has it, and for clips that open, with
    non-negative durations, the analyzer does return. *)
Theorem audio_component_zero_without_track
        (original_path processed_path : string) (a b : Clip AudioTrack) :
  VideoFileClip original_path = Return a ->
  VideoFileClip processed_path = Return b ->
  audio a = None \/ audio b = None ->
  (forall avg aud, analyze' original_path processed_path = Return (avg, aud) ->
                   aud = Some 0) /\
  (0 <= duration a -> 0 <= duration b ->
   exists avg, analyze' original_path processed_path = Return (avg, Some 0)).
Proof.
  intros Ha Hb Hnone. split.
  - intros avg aud E.
    destruct (analyze_inversion _ _ _ _ E) as (a' & b' & times & Ha' & Hb' & _ & ->).
    rewrite Ha in Ha'. rewrite Hb in Hb'. injection Ha' as <-. injection Hb' as <-.
    apply audio_branch_without_track; assumption.
  - intros Da Db.
    destruct (analyze_returns _ _ a b Ha Hb Da Db) as (times & _ & _ & E).
    rewrite (audio_branch_without_track a b Hnone) in E.
    eexists. exact E.
Qed.

(** C6.  For two clips that open, with non-negative durations, the
    analyzer returns whatever the samples do: at most 10 time points are
    taken, a sample that raises is left out, and the first component of
    the result is the sum of the successful percentages over their
    number, or exactly 0 when there is none, in particular when every
    sample raises. *)
Theorem failed_samples_are_skipped
        (original_path processed_path : string) (a b : Clip AudioTrack) :
  VideoFileClip original_path = Return a ->
  VideoFileClip processed_path = Return b ->
  0 <= duration a -> 0 <= duration b ->
  let d := py_min (duration a) (duration b) in
  exists times avg aud,
    np_linspace0 d (Z.min 10 (ImagePipeline.py_int d)) = Return times /\
    (length times <= 10)%nat /\
    analyze' original_path processed_path = Return (avg, aud) /\
    (successful' a b times <> [] ->
     avg = Qsum (successful' a b times)
           / inject_Z (Z.of_nat (length (successful' a b times)))) /\
    (successful' a b times = [] -> avg = 0) /\
    ((forall t, In t times -> succeeded (sample' a b t) = false) -> avg = 0).
Proof.
  intros Ha Hb Da Db d.
  destruct (analyze_returns _ _ a b Ha Hb Da Db) as (times & E & L & R).
  fold d in E.
  exists times. eexists. eexists.
  split; [exact E|]. split; [exact L|]. split; [exact R|].
  split; [|split].
  - intros Hne. destruct (successful' a b times); [congruence|reflexivity].
  - intros ->. reflexivity.
  - intros Hall. now rewrite (successful_none a b times Hall).
Qed.

Section Ranges.

(** The two facts about the libraries on which the ranges rest: the
    square root is not negative, and [imagehash.phash] with its default
    arguments gives an 8x8 hash. *)
Hypothesis fsqrt_nonneg : forall x, 0 <= fsqrt x.
Hypothesis phash_8x8 : forall pic, has_shape 8 8 (phash pic) = true.

Variable Image_open : string -> outcome Picture.

Lemma sample_range (a b : Clip AudioTrack) (t p : Q) :
  sample' a b t = Return p -> 0 <= p <= 100.
Proof.
  unfold sample.
  destruct (get_frame a t) as [fa|]; [|discriminate]. cbn [and_then].
  destruct (get_frame b t) as [fb|]; [|discriminate]. cbn [and_then].
  destruct (to_pil fa) as [pa|]; [|discriminate]. cbn [and_then].
  destruct (to_pil fb) as [pb|]; [|discriminate]. cbn [and_then].
  apply PHashFacts.percentage_of_8x8_bounds; apply phash_8x8.
Qed.

Lemma successful_range (a b : Clip AudioTrack) (times : list Q) :
  Forall (fun x => 0 <= x /\ x <= 100) (successful' a b times).
Proof.
  unfold successful_samples. induction times as [|t times IH]; simpl; [constructor|].
  destruct (sample' a b t) as [p|] eqn:E; simpl; [|exact IH].
  constructor; [|exact IH]. exact (sample_range a b t p E).
Qed.

Lemma np_abs_nonneg (spec : list (Q * Q)) :
  Forall (fun x => 0 <= x) (map (np_abs fsqrt) spec).
Proof.
  apply Forall_forall. intros x Hin. apply in_map_iff in Hin.
  destruct Hin as ([re im] & <- & _). apply fsqrt_nonneg.
Qed.

(** The cosine distance of two vectors without negative entries is a NaN
    or lies between 0 and 1. *)
Lemma cosine_range (u v : list Q) (dist : fval) :
  Forall (fun x => 0 <= x) u -> Forall (fun x => 0 <= x) v ->
  cosine fsqrt u v = Return dist ->
  forall q, dist = Fin q -> 0 <= q /\ q <= 1.
Proof.
  intros Hu Hv. unfold cosine.
  destruct (negb (length u =? length v)%nat); [discriminate|].
  pose proof (dot_nonneg u v Hu Hv) as Huv.
  pose proof (fsqrt_nonneg (dot u u * dot v v)) as Hs.
  destruct (Qeq_bool (fsqrt (dot u u * dot v v)) 0) eqn:Es.
  - destruct (Qeq_bool (dot u v) 0); [intros [= <-] q; discriminate|].
    apply Qle_bool_iff in Huv. rewrite Huv.
    intros [= <-] q [= <-]. split; lra.
  - intros [= <-] q [= <-]. split.
    + apply np_clip_range. lra.
    + apply np_clip_le; [|lra].
      assert (Hpos : 0 < fsqrt (dot u u * dot v v)).
      { apply Qle_lt_or_eq in Hs. destruct Hs as [Hs|Hs]; [exact Hs|].
        symmetry in Hs. apply Qeq_bool_iff in Hs. congruence. }
      assert (0 <= dot u v / fsqrt (dot u u * dot v v)).
      { apply Qle_shift_div_l; [exact Hpos|]. lra. }
      lra.
Qed.

Lemma audio_dissimilarity_range (ta tb : AudioTrack) (x : Q) :
  audio_dissimilarity fsqrt AudioTrack load_audio librosa_stft ta tb = Return x ->
  0 <= x /\ x <= 100.
Proof.
  unfold audio_dissimilarity.
  destruct (load_audio ta) as [sa|]; [|discriminate]. cbn [and_then].
  destruct (load_audio tb) as [sb|]; [|discriminate]. cbn [and_then].
  destruct (librosa_stft _) as [spa|]; [|discriminate]. cbn [and_then].
  destruct (librosa_stft _) as [spb|]; [|discriminate]. cbn [and_then].
  destruct (cosine fsqrt _ _) as [dist|] eqn:Ec; [|discriminate]. cbn [and_then].
  intros [= <-]. apply py_max0_range.
  intros q Hq.
  pose proof (cosine_range _ _ dist (np_abs_nonneg spa) (np_abs_nonneg spb) Ec) as Hr.
  destruct dist as [q0|]; [|discriminate].
  destruct (Hr q0 eq_refl) as [H0 H1].
  cbn in Hq. injection Hq as <-. lra.
Qed.

Lemma audio_branch_range (a b : Clip AudioTrack) :
  exists x, audio_branch' a b = Some x /\ 0 <= x /\ x <= 100.
Proof.
  unfold audio_branch.
  destruct (audio a) as [ta|]; [|exists 0; split; [reflexivity|split; lra]].
  destruct (audio b) as [tb|]; [|exists 0; split; [reflexivity|split; lra]].
  destruct (audio_dissimilarity _ _ _ _ ta tb) as [x|] eqn:E;
    [|exists 0; split; [reflexivity|split; lra]].
  exists x. split; [destruct cleanup; reflexivity|].
  exact (audio_dissimilarity_range ta tb x E).
Qed.

(** C4.  Every percentage lies between 0 and 100: the value returned by
    [calculate_phash_difference], and both components of a result of
    [analyze_video_uniqueness] (the phash difference and the audio
    dissimilarity, which is always a number). *)
Theorem percentages_in_range :
  (forall img1_path img2_path d,
      calculate_phash_difference Picture Image_open phash img1_path img2_path = Return d ->
      0 <= d /\ d <= 100) /\
  (forall original_path processed_path avg aud,
      analyze' original_path processed_path = Return (avg, aud) ->
      (0 <= avg /\ avg <= 100) /\
      exists x, aud = Some x /\ 0 <= x /\ x <= 100).
Proof.
  split.
  - intros p1 p2 d. unfold calculate_phash_difference.
    destruct (Image_open p1) as [i1|]; [|discriminate].
    destruct (Image_open p2) as [i2|]; [|discriminate].
    apply PHashFacts.percentage_of_8x8_bounds; apply phash_8x8.
  - intros o p avg aud E.
    destruct (analyze_inversion _ _ _ _ E) as (a & b & times & _ & _ & -> & ->).
    split; [|apply audio_branch_range].
    pose proof (successful_range a b times) as Hall.
    destruct (successful' a b times) as [|x l] eqn:Es; [split; lra|].
    apply np_mean_bounds; [discriminate|exact Hall].
Qed.

End Ranges.

End AnalysisFacts.

Lemma fsqrt_demo_nonneg (x : Q) : 0 <= Examples.fsqrt_demo x.
Proof.
  unfold Examples.fsqrt_demo, Qle. cbn [Qnum Qden].
  pose proof (Z.sqrt_nonneg (Qnum x * 1000000 / Zpos (Qden x))). lia.
Qed.

Lemma phash_frame_8x8 (m : ImagePipeline.Mat) :
  has_shape 8 8 (Examples.phash_frame m) = true.
Proof.
  unfold Examples.phash_frame.
  destruct (ImagePipeline.at_ m 0 0) as [[b g] r].
  destruct (b =? 10)%Z; reflexivity.
Qed.

(** Counterexample to C2 as stated: the first clip has no audio track, the
    analyzer returns, and the audio component of its result is the
    number 0, not an absent value. *)
Lemma audio_component_not_absent :
  Examples.open_clip "silent.mp4" = Return Examples.clip_silent /\
  audio Examples.clip_silent = None /\
  exists avg aud,
    Examples.analyze_demo "silent.mp4" "proc.mp4" = Return (avg, aud) /\
    aud = Some 0 /\ aud <> None.
Proof.
  split; [reflexivity|]. split; [reflexivity|].
  eexists. eexists. split; [vm_compute; reflexivity|].
  split; [reflexivity|discriminate].
Qed.

Lemma audio_component_zero_without_track_witness :
  exists avg, Examples.analyze_demo "silent.mp4" "proc.mp4" = Return (avg, Some 0).
Proof.
  unfold Examples.analyze_demo.
  apply (audio_component_zero_without_track
           Examples.fsqrt_demo ImagePipeline.Mat (list Q) Examples.open_clip
           Examples.to_pil_demo Examples.phash_frame Examples.load_demo
           Examples.stft_demo Examples.cleanup_demo
           "silent.mp4" "proc.mp4" Examples.clip_silent Examples.clip_proc).
  - reflexivity.
  - reflexivity.
  - left. reflexivity.
  - unfold Qle. simpl. lia.
  - unfold Qle. simpl. lia.
Defined.

Lemma failed_samples_are_skipped_witness :
  exists avg aud,
    Examples.analyze_demo "broken.mp4" "proc.mp4" = Return (avg, aud) /\ avg = 0.
Proof.
  unfold Examples.analyze_demo.
  destruct (failed_samples_are_skipped
              Examples.fsqrt_demo ImagePipeline.Mat (list Q) Examples.open_clip
              Examples.to_pil_demo Examples.phash_frame Examples.load_demo
              Examples.stft_demo Examples.cleanup_demo
              "broken.mp4" "proc.mp4" Examples.clip_broken Examples.clip_proc
              eq_refl eq_refl)
    as (times & avg & aud & _ & _ & E & _ & _ & Hzero).
  - unfold Qle. simpl. lia.
  - unfold Qle. simpl. lia.
  - exists avg, aud. split; [exact E|].
    apply Hzero. intros t _. reflexivity.
Defined.

Lemma percentages_in_range_witness :
  (exists d, calculate_phash_difference _ Examples.open_frame Examples.phash_frame
               "in.png" "in.png" = Return d /\ 0 <= d /\ d <= 100) /\
  (exists avg x, Examples.analyze_demo "talk.mp4" "proc.mp4" = Return (avg, Some x) /\
                 (0 <= avg /\ avg <= 100) /\ 0 <= x /\ x <= 100).
Proof.
  destruct (percentages_in_range
              Examples.fsqrt_demo ImagePipeline.Mat (list Q) Examples.open_clip
              Examples.to_pil_demo Examples.phash_frame Examples.load_demo
              Examples.stft_demo Examples.cleanup_demo
              fsqrt_demo_nonneg phash_frame_8x8 Examples.open_frame)
    as [Hhash Hvideo].
  split.
  - destruct (calculate_phash_difference _ Examples.open_frame Examples.phash_frame
                                         "in.png" "in.png") as [d|] eqn:E;
      [|vm_compute in E; discriminate].
    exists d. split; [reflexivity|].
    exact (Hhash "in.png"%string "in.png"%string d E).
  - destruct (Examples.analyze_demo "talk.mp4" "proc.mp4") as [[avg aud]|] eqn:E;
      [|vm_compute in E; discriminate].
    destruct (Hvideo "talk.mp4"%string "proc.mp4"%string avg aud E) as (Havg & x & -> & Hx).
    exists avg, x. split; [reflexivity|]. split; assumption.
Defined.

End AnalyzerFacts.

(* ===================================================================== *)
(** * Further properties of the hash engine and of the labels *)
(* ===================================================================== *)

Module PHashMore.

Import PHash PHashFacts.

Lemma hamming_sym (a b : list bool) : hamming a b = hamming b a.
Proof.
  revert b. induction a as [|x a IH]; intros [|y b]; simpl; try reflexivity.
  rewrite IH. destruct x, y; reflexivity.
Qed.

Lemma hamming_complement (l : list bool) :
  hamming l (map negb l) = Z.of_nat (length l).
Proof.
  induction l as [|x l IH]; [reflexivity|].
  simpl hamming. simpl length. rewrite IH. destruct x; simpl Bool.eqb; lia.
Qed.

Lemma has_shape_complement (r c : nat) (h : ImageHash) :
  has_shape r c h = true -> has_shape r c (map (map negb) h) = true.
Proof.
  unfold has_shape. rewrite length_map. intros H.
  apply andb_true_iff in H. destruct H as [Hr Hc]. rewrite Hr. simpl.
  rewrite forallb_forall in *. intros row Hin.
  apply in_map_iff in Hin. destruct Hin as (row' & <- & Hin').
  rewrite length_map. now apply Hc.
Qed.

Lemma flatten_complement (h : ImageHash) :
  flatten (map (map negb) h) = map negb (flatten h).
Proof.
  unfold flatten. induction h as [|row h IH]; [reflexivity|].
  simpl. now rewrite map_app, IH.
Qed.

(** On two hashes of [r] rows and [c] columns the three shared lines
    divide the Hamming distance by [8 * r]. *)
Lemma percentage_of_shape (r c : nat) (h1 h2 : ImageHash) :
  (0 < r)%nat -> has_shape r c h1 = true -> has_shape r c h2 = true ->
  percentage_of h1 h2 =
  Return (inject_Z (hamming (flatten h1) (flatten h2))
          / inject_Z (Z.of_nat r * itemsize * 8) * 100).
Proof.
  intros Hr H1 H2.
  destruct (has_shape_sizes _ _ _ H1) as [L1 S1].
  destruct (has_shape_sizes _ _ _ H2) as [_ S2].
  unfold percentage_of, hash_sub. rewrite S1, S2, Nat.eqb_refl, L1.
  rewrite count_nonzero_not_equal. unfold true_div.
  replace (Z.of_nat r * itemsize * 8 =? 0)%Z with false; [reflexivity|].
  symmetry. apply Z.eqb_neq. unfold itemsize. lia.
Qed.

Lemma ratio_bounds (d r c : Z) :
  (0 < r)%Z -> (0 <= d <= r * c)%Z ->
  0 <= inject_Z d / inject_Z (r * 1 * 8) * 100 /\
  inject_Z d / inject_Z (r * 1 * 8) * 100 <= inject_Z c / 8 * 100.
Proof.
  intros Hr [Hlo Hhi].
  assert (Hd0 : 0 <= inject_Z d) by (rewrite Zle_Qle in Hlo; exact Hlo).
  assert (Hd1 : inject_Z d <= inject_Z r * inject_Z c)
    by (rewrite Zle_Qle, inject_Z_mult in Hhi; exact Hhi).
  assert (Hrq : 0 < inject_Z r) by (rewrite Zlt_Qlt in Hr; exact Hr).
  assert (E : inject_Z (r * 1 * 8) == inject_Z r * 8).
  { rewrite !inject_Z_mult. change (inject_Z 1) with 1. change (inject_Z 8) with 8. ring. }
  rewrite E.
  assert (Hpos : 0 < inject_Z r * 8) by nra.
  split.
  - apply Qmult_le_0_compat; [|lra]. apply Qle_shift_div_l; [exact Hpos|]. lra.
  - apply Qmult_le_compat_r; [|lra].
    apply Qle_shift_div_r; [exact Hpos|].
    setoid_replace (inject_Z c / 8 * (inject_Z r * 8)) with (inject_Z r * inject_Z c)
      by field.
    exact Hd1.
Qed.

Section EngineMore.

Variable Picture : Type.
Variable Image_open : string -> outcome Picture.
Variable phash : Picture -> ImageHash.

Abbreviation difference := (calculate_phash_difference Picture Image_open phash).

(** X1.  The comparison is symmetric: for two images that open and hash
    to 8x8 arrays, exchanging the two paths gives the same value. *)
Theorem calculate_phash_difference_sym (p1 p2 : string) (i1 i2 : Picture) :
  Image_open p1 = Return i1 -> Image_open p2 = Return i2 ->
  has_shape 8 8 (phash i1) = true -> has_shape 8 8 (phash i2) = true ->
  difference p1 p2 = difference p2 p1.
Proof.
  intros O1 O2 S1 S2. unfold calculate_phash_difference. rewrite O1, O2.
  rewrite (percentage_of_8x8 _ _ S1 S2), (percentage_of_8x8 _ _ S2 S1).
  now rewrite hamming_sym.
Qed.

(** X2.  The divisor is eight times the number of rows of the first
    hash.  On two hashes of [r] rows and [c] columns the result is the
    Hamming distance over [8 * r], times 100; it lies between 0 and
    [c / 8 * 100], and a hash against its complement reaches that
    bound.  So the result is the share of differing bits only when the
    hash has eight columns. *)
Theorem calculate_phash_difference_divisor
        (r c : nat) (p1 p2 : string) (i1 i2 : Picture) :
  Image_open p1 = Return i1 -> Image_open p2 = Return i2 ->
  (0 < r)%nat ->
  has_shape r c (phash i1) = true -> has_shape r c (phash i2) = true ->
  exists d,
    difference p1 p2 = Return d /\
    d = inject_Z (hamming (flatten (phash i1)) (flatten (phash i2)))
        / inject_Z (Z.of_nat r * 1 * 8) * 100 /\
    0 <= d /\ d <= inject_Z (Z.of_nat c) / 8 * 100 /\
    (phash i2 = map (map negb) (phash i1) -> d == inject_Z (Z.of_nat c) / 8 * 100).
Proof.
  intros O1 O2 Hr S1 S2. unfold calculate_phash_difference. rewrite O1, O2.
  rewrite (percentage_of_shape r c _ _ Hr S1 S2). unfold itemsize.
  eexists. split; [reflexivity|]. split; [reflexivity|].
  destruct (has_shape_sizes _ _ _ S1) as [_ Z1]. unfold size in Z1.
  pose proof (hamming_range (flatten (phash i1)) (flatten (phash i2))) as Hh.
  rewrite Z1 in Hh.
  assert (Hb : (0 <= hamming (flatten (phash i1)) (flatten (phash i2))
                <= Z.of_nat r * Z.of_nat c)%Z) by lia.
  destruct (ratio_bounds _ (Z.of_nat r) (Z.of_nat c) ltac:(lia) Hb) as [B0 B1].
  split; [exact B0|]. split; [exact B1|].
  intros Hc. rewrite Hc, flatten_complement, hamming_complement, Z1.
  rewrite Nat2Z.inj_mul, !inject_Z_mult.
  change (inject_Z 1) with 1. change (inject_Z 8) with 8.
  field. intros H0. apply (Qlt_irrefl 0). rewrite <- H0 at 2.
  change 0 with (inject_Z 0). rewrite <- Zlt_Qlt. lia.
Qed.


End EngineMore.

End PHashMore.

Module RiskMore.

Import Risk PHash.

Lemma get_risk_level_cases (p : Q) (a : option Q) :
  (45 <= p /\ get_risk_level p a = Low_risk) \/
  (30 <= p /\ p < 45 /\ get_risk_level p a = Medium_risk) \/
  (p < 30 /\ get_risk_level p a = High_risk).
Proof.
  unfold get_risk_level.
  destruct (Qle_bool 45 p) eqn:E45.
  - left. split; [now apply Qle_bool_iff|reflexivity].
  - assert (H45 : p < 45).
    { apply Qnot_le_lt. intros H. apply Qle_bool_iff in H. congruence. }
    destruct (Qle_bool 30 p) eqn:E30.
    + right. left. repeat split; [now apply Qle_bool_iff|exact H45].
    + right. right. split; [|reflexivity].
      apply Qnot_le_lt. intros H. apply Qle_bool_iff in H. congruence.
Qed.

(** X4.  The label is monotone in the difference: when a difference is
    labelled high risk, so is every smaller one, and when it is labelled
    low risk, so is every larger one, whatever the audio arguments. *)
Theorem get_risk_level_monotone (p q : Q) (a b : option Q) :
  p <= q ->
  (get_risk_level q a = High_risk -> get_risk_level p b = High_risk) /\
  (get_risk_level p a = Low_risk -> get_risk_level q b = Low_risk).
Proof.
  intros Hpq.
  destruct (get_risk_level_cases p a) as [[Hp Ep] | [(Hp & Hp' & Ep) | [Hp Ep]]];
  destruct (get_risk_level_cases q a) as [[Hq Eq] | [(Hq & Hq' & Eq) | [Hq Eq]]];
  destruct (get_risk_level_cases p b) as [[Hp2 Ep2] | [(Hp2 & Hp2' & Ep2) | [Hp2 Ep2]]];
  destruct (get_risk_level_cases q b) as [[Hq2 Eq2] | [(Hq2 & Hq2' & Eq2) | [Hq2 Eq2]]];
  try lra; rewrite ?Ep, ?Eq, ?Ep2, ?Eq2; split; intros H;
    first [reflexivity | discriminate H].
Qed.

Lemma get_risk_level_monotone_witness :
  get_risk_level 12.5 None = High_risk /\ get_risk_level 50 (Some 3) = Low_risk.
Proof.
  split.
  - apply (get_risk_level_monotone 12.5 20 (Some 1) None);
      [unfold Qle; simpl; lia | reflexivity].
  - apply (get_risk_level_monotone 46 50 None (Some 3));
      [unfold Qle; simpl; lia | reflexivity].
Defined.

End RiskMore.

(* ===================================================================== *)
(** * Further properties of the image pipeline *)
(* ===================================================================== *)

Module ImageMore.

Import ImagePipeline TierSpec TierFacts ImageFacts.

Lemma py_int_upper (q : Q) : 0 <= q -> q < inject_Z (py_int q) + 1.
Proof.
  destruct q as [n d]. unfold py_int, Qle, Qlt, Qplus, inject_Z. cbn [Qnum Qden].
  intros H. rewrite Z.quot_div_nonneg by lia.
  pose proof (Z.mul_succ_div_gt n (Zpos d) eq_refl). lia.
Qed.

(** [int] of a non-negative float is its integer part. *)
Lemma py_int_floor (q : Q) (k : Z) :
  (0 <= k)%Z -> inject_Z k <= q -> q < inject_Z k + 1 -> py_int q = k.
Proof.
  intros Hk Hlo Hhi.
  assert (H0 : 0 <= q).
  { apply Qle_trans with (inject_Z k); [|exact Hlo].
    change 0 with (inject_Z 0). now rewrite <- Zle_Qle. }
  destruct (py_int_range q H0) as [Hp0 Hp1].
  pose proof (py_int_upper q H0) as Hp2.
  assert (A : inject_Z (py_int q) < inject_Z k + 1) by lra.
  assert (B : inject_Z k < inject_Z (py_int q) + 1) by lra.
  change 1 with (inject_Z 1) in A, B. rewrite <- inject_Z_plus in A, B.
  rewrite <- Zlt_Qlt in A, B. lia.
Qed.

Lemma np_clip_inside (x lo hi : Q) :
  lo <= x -> x <= hi -> np_clip x lo hi == x.
Proof.
  intros Hlo Hhi. unfold np_clip.
  rewrite (Q.max_l x lo Hlo). apply Q.min_l. exact Hhi.
Qed.

Lemma np_clip_below (x lo hi : Q) :
  x <= lo -> lo <= hi -> np_clip x lo hi == lo.
Proof.
  intros Hx Hlh. unfold np_clip.
  rewrite (Q.max_r x lo Hx). apply Q.min_l. exact Hlh.
Qed.

Lemma py_int_of_between (q : Q) (k : Z) (r : Q) :
  r == q -> (0 <= k)%Z -> inject_Z k <= q -> q < inject_Z k + 1 -> py_int r = k.
Proof.
  intros E Hk Hlo Hhi. apply py_int_floor; [exact Hk| |]; rewrite E; assumption.
Qed.



Lemma crop_percent_lower (t : Tier) (p : ImageParams) :
  within (image_table t) p -> 0.02 <= crop_percent p.
Proof.
  intros (Hc & _). destruct Hc as [Hlo _].
  destruct t; cbn in Hlo; lra.
Qed.

(** The extent kept by the crop, for a crop fraction between 2% and 6%. *)
Lemma crop_share (W : Z) (cp : Q) :
  (0 <= W)%Z -> 0.02 <= cp -> cp <= 0.06 ->
  inject_Z (py_int (inject_Z W * (1 - cp))) <= 0.98 * inject_Z W /\
  0.94 * inject_Z W - 1 < inject_Z (py_int (inject_Z W * (1 - cp))).
Proof.
  intros HW H0 H1.
  assert (HWq : 0 <= inject_Z W) by (rewrite Zle_Qle in HW; exact HW).
  assert (Hq : 0 <= inject_Z W * (1 - cp)) by nra.
  destruct (py_int_range _ Hq) as [_ Hhi].
  pose proof (py_int_upper _ Hq) as Hlo.
  split; nra.
Qed.

Section PipelineMore.

Variable resize_at : Mat -> nat -> nat -> nat -> nat -> Pixel.
Variable warp_at : Mat -> (Q * Q * Q) * (Q * Q * Q) -> nat -> nat -> Pixel.
Variable normal_noise : Q -> nat -> nat -> nat -> nat -> Pixel.
Variable addWeighted_px : Pixel -> Q -> Pixel -> Q -> Q -> Pixel.
Variable bgr2hls : Pixel -> Pixel.
Variable hls2bgr : Pixel -> Pixel.
Variable imwrite_status : string -> Mat -> outcome bool.

Abbreviation transform' :=
  (transform resize_at warp_at normal_noise addWeighted_px bgr2hls hls2bgr).
Abbreviation process_image' :=
  (process_image resize_at warp_at normal_noise addWeighted_px bgr2hls hls2bgr
                 imwrite_status).

Lemma process_image_read (input_path output_path : string) (level : Z)
      (w : World) (img : Mat) :
  files w input_path = Some img ->
  process_image' input_path output_path level w =
  bind (transform' img level)
       (fun out => bind (cv2_imwrite imwrite_status output_path out)
                        (fun _ => ret true)) w.
Proof.
  intros Hread. unfold process_image.
  rewrite (bind_return _ _ w w (Some img)) by (unfold cv2_imread; now rewrite Hread).
  reflexivity.
Qed.

(** X6.  The answer of [cv2.imwrite] is not looked at.  For a readable
    source of at least 2x2 pixels, when [cv2.imwrite] answers [False]
    the call still returns [True], and no file has been written or
    changed. *)
Theorem process_image_write_refused
        (input_path output_path : string) (level : Z) (w : World) (img : Mat) :
  files w input_path = Some img ->
  (2 <= rows img)%nat -> (2 <= cols img)%nat ->
  (forall m, imwrite_status output_path m = Return false) ->
  exists w', process_image' input_path output_path level w = (Return true, w') /\
             files w' = files w.
Proof.
  intros Hread Hr Hc Hrefuse.
  destruct (transform_outcome resize_at warp_at normal_noise addWeighted_px
                              bgr2hls hls2bgr img level w)
    as (p & w1 & box & w2 & _ & _ & F2 & Hcp1 & Hcp0 & Hcw & Hch & _ & Hcases).
  destruct Hcases as [[Hempty _] | (_ & _ & out & Hret & _ & _)].
  - exfalso.
    pose proof (crop_extent_positive (Z.of_nat (cols img)) (crop_percent p)
                                     ltac:(lia) Hcp0 Hcp1).
    pose proof (crop_extent_positive (Z.of_nat (rows img)) (crop_percent p)
                                     ltac:(lia) Hcp0 Hcp1).
    destruct Hempty; lia.
  - exists w2. split; [|exact F2].
    rewrite (process_image_read _ _ _ _ _ Hread).
    rewrite (bind_return _ _ _ _ _ Hret).
    unfold bind, cv2_imwrite. rewrite Hrefuse. reflexivity.
Qed.

(** X7.  Only the output path is ever written.  Whatever the call does,
    return or raise, every other path holds after it what it held
    before: the source is left as it is unless it is named as output. *)
Theorem process_image_touches_output_only
        (input_path output_path : string) (level : Z) (w : World) (path : string) :
  path <> output_path ->
  files (snd (process_image' input_path output_path level w)) path = files w path.
Proof.
  intros Hne.
  destruct (files w input_path) as [img|] eqn:Hread.
  - rewrite (process_image_read _ _ _ _ _ Hread).
    destruct (transform_outcome resize_at warp_at normal_noise addWeighted_px
                                bgr2hls hls2bgr img level w)
      as (p & w1 & box & w2 & _ & _ & F2 & _ & _ & _ & _ & _ & Hcases).
    destruct Hcases as [[_ Hraise] | (_ & _ & out & Hret & _ & _)].
    + rewrite (bind_raise _ _ _ _ _ Hraise). cbn [snd]. now rewrite F2.
    + rewrite (bind_return _ _ _ _ _ Hret).
      unfold bind, cv2_imwrite.
      destruct (imwrite_status output_path out) as [[|]|e]; cbn [snd files].
      * unfold write_file, ret. cbn [snd files].
        apply String.eqb_neq in Hne. rewrite Hne. now rewrite F2.
      * unfold ret. cbn [snd]. now rewrite F2.
      * now rewrite F2.
  - unfold process_image.
    rewrite (bind_return _ _ w w None) by (unfold cv2_imread; now rewrite Hread).
    reflexivity.
Qed.


End PipelineMore.

End ImageMore.

(* ===================================================================== *)
(** * Further properties of the analyzer *)
(* ===================================================================== *)

Module AnalyzerMore.

Import PHash Analyzer AnalyzerFacts.

Lemma py_min_le (x y : Q) : py_min x y <= x /\ py_min x y <= y.
Proof. unfold py_min. destruct (Qlt_le_dec y x); split; lra. Qed.

Lemma py_int_below_one (q : Q) : 0 <= q -> q < 1 -> ImagePipeline.py_int q = 0%Z.
Proof.
  intros H0 H1. apply ImageMore.py_int_floor; [lia | exact H0 | ].
  change (inject_Z 0) with 0. lra.
Qed.

(** The points of [np.linspace(0, stop, num)] start at 0 and do not go
    past [stop]. *)
Lemma np_linspace0_points (stop : Q) (num : Z) (times : list Q) :
  0 <= stop -> np_linspace0 stop num = Return times ->
  Forall (fun t => 0 <= t /\ t <= stop) times /\
  (forall t0 rest, times = t0 :: rest -> t0 == 0).
Proof.
  intros Hs. unfold np_linspace0.
  destruct (num <? 0)%Z eqn:Eneg; [discriminate|].
  destruct (num =? 0)%Z eqn:E0; [intros [= <-]; split; [constructor|discriminate]|].
  destruct (num =? 1)%Z eqn:E1.
  { intros [= <-]. split.
    - constructor; [split; lra|constructor].
    - intros t0 rest [= <- _]. reflexivity. }
  apply Z.ltb_ge in Eneg. apply Z.eqb_neq in E0, E1.
  intros [= <-]. split.
  - apply Forall_forall. intros t Hin. apply in_map_iff in Hin.
    destruct Hin as (i & <- & Hi). apply in_seq in Hi.
    assert (Hm : 0 < inject_Z (num - 1)).
    { change 0 with (inject_Z 0). rewrite <- Zlt_Qlt. lia. }
    assert (Hi0 : 0 <= inject_Z (Z.of_nat i)).
    { change 0 with (inject_Z 0). rewrite <- Zle_Qle. lia. }
    assert (Hi1 : inject_Z (Z.of_nat i) <= inject_Z (num - 1)).
    { rewrite <- Zle_Qle. lia. }
    assert (Hstep : 0 <= stop / inject_Z (num - 1)).
    { apply Qle_shift_div_l; [exact Hm|]. lra. }
    split; [nra|].
    setoid_replace stop with (inject_Z (num - 1) * (stop / inject_Z (num - 1))) at 2.
    + apply Qmult_le_compat_r; assumption.
    + field. intros H0. rewrite H0 in Hm. exact (Qlt_irrefl 0 Hm).
  - intros t0 rest E.
    destruct (Z.to_nat num) as [|n] eqn:En; [lia|].
    cbn [seq map] in E. injection E as <- _.
    change (inject_Z (Z.of_nat 0)) with 0. apply Qmult_0_l.
Qed.

Section AnalysisMore.

Variable fsqrt : Q -> Q.
Variable Picture : Type.
Variable AudioTrack : Type.
Variable VideoFileClip : string -> outcome (Clip AudioTrack).
Variable to_pil : ImagePipeline.Mat -> outcome Picture.
Variable phash : Picture -> ImageHash.
Variable load_audio : AudioTrack -> outcome (list Q).
Variable librosa_stft : list Q -> outcome (list (Q * Q)).
Variable cleanup : outcome unit.

Abbreviation sample' := (sample Picture AudioTrack to_pil phash).
Abbreviation successful' := (successful_samples Picture AudioTrack to_pil phash).
Abbreviation analyze' :=
  (analyze_video_uniqueness fsqrt Picture AudioTrack VideoFileClip to_pil phash
                            load_audio librosa_stft cleanup).

(** X9.  The time points at which frames are requested: there are
    [min(10, int(d))] of them, [d] being the smaller of the two
    durations; the first is 0 and none lies outside either clip. *)
Theorem keyframe_times_inside_both_clips (a b : Clip AudioTrack) :
  0 <= duration a -> 0 <= duration b ->
  let d := py_min (duration a) (duration b) in
  exists times,
    np_linspace0 d (Z.min 10 (ImagePipeline.py_int d)) = Return times /\
    length times = Z.to_nat (Z.min 10 (ImagePipeline.py_int d)) /\
    Forall (fun t => 0 <= t /\ t <= duration a /\ t <= duration b) times /\
    (forall t0 rest, times = t0 :: rest -> t0 == 0).
Proof.
  intros Da Db d.
  assert (Hd : 0 <= d) by (apply py_min_nonneg; assumption).
  destruct (ImageFacts.py_int_range d Hd) as [Hint _].
  destruct (np_linspace0_returns d (Z.min 10 (ImagePipeline.py_int d)))
    as (times & E & L); [lia|].
  exists times. split; [exact E|]. split; [exact L|].
  destruct (np_linspace0_points d _ times Hd E) as [Hall Hfirst].
  split; [|exact Hfirst].
  destruct (py_min_le (duration a) (duration b)) as [La Lb]. fold d in La, Lb.
  eapply Forall_impl; [|exact Hall].
  intros t [H0 H1]. cbv beta. repeat split; lra.
Qed.

Lemma sample_same_clip (a : Clip AudioTrack) (t p : Q) :
  (forall pic, has_shape 8 8 (phash pic) = true) ->
  sample' a a t = Return p -> 0 <= p /\ p <= 0.
Proof.
  intros Hshape. unfold sample.
  destruct (get_frame a t) as [f|]; [|discriminate]. cbn [and_then].
  destruct (to_pil f) as [pic|]; [|discriminate]. cbn [and_then].
  rewrite (PHashFacts.percentage_of_8x8 _ _ (Hshape pic) (Hshape pic)).
  rewrite PHashFacts.hamming_same. intros [= <-].
  unfold Qle. simpl. lia.
Qed.

(** X10.  A clip compared with itself: when the clip opens, with a
    non-negative duration, and [phash] gives 8x8 hashes, the analyzer
    returns and the phash component of its result is 0. *)
Theorem analyze_same_clip (path : string) (a : Clip AudioTrack) :
  VideoFileClip path = Return a ->
  0 <= duration a ->
  (forall pic, has_shape 8 8 (phash pic) = true) ->
  exists avg aud, analyze' path path = Return (avg, aud) /\ avg == 0.
Proof.
  intros Ha Da Hshape.
  destruct (analyze_returns fsqrt Picture AudioTrack VideoFileClip to_pil phash
                            load_audio librosa_stft cleanup path path a a Ha Ha Da Da)
    as (times & _ & _ & E).
  eexists. eexists. split; [exact E|].
  assert (Hall : Forall (fun x => 0 <= x /\ x <= 0) (successful' a a times)).
  { unfold successful_samples. clear E.
    induction times as [|t times IH]; simpl; [constructor|].
    destruct (sample' a a t) as [p|] eqn:Es; simpl; [|exact IH].
    constructor; [|exact IH]. exact (sample_same_clip a t p Hshape Es). }
  destruct (successful' a a times) as [|x l] eqn:Es; [reflexivity|].
  destruct (np_mean_bounds 0 0 (x :: l)) as [H0 H1]; [discriminate|exact Hall|].
  apply Qle_antisym; assumption.
Qed.

(** X11.  The audio block is fail-soft and has no part in the phash
    component.  The result is the same whether or not the two
    [os.remove] calls raise; an exception raised before the assignment
    leaves the audio component at 0; and whether the analyzer returns,
    and its phash component, do not depend on the audio machinery. *)
Theorem audio_block_is_fail_soft (original_path processed_path : string) :
  (forall cleanup2,
      analyze' original_path processed_path =
      analyze_video_uniqueness fsqrt Picture AudioTrack VideoFileClip to_pil phash
                               load_audio librosa_stft cleanup2
                               original_path processed_path) /\
  (forall a b ta tb e avg aud,
      VideoFileClip original_path = Return a ->
      VideoFileClip processed_path = Return b ->
      audio a = Some ta -> audio b = Some tb ->
      audio_dissimilarity fsqrt AudioTrack load_audio librosa_stft ta tb = Raise e ->
      analyze' original_path processed_path = Return (avg, aud) ->
      aud = Some 0) /\
  (forall fsqrt2 load_audio2 librosa_stft2 cleanup2,
      (r <~ analyze' original_path processed_path ;; Return (fst r)) =
      (r <~ analyze_video_uniqueness fsqrt2 Picture AudioTrack VideoFileClip to_pil
              phash load_audio2 librosa_stft2 cleanup2
              original_path processed_path ;; Return (fst r))).
Proof.
  split; [|split].
  - intros cleanup2. unfold analyze_video_uniqueness.
    destruct (VideoFileClip original_path) as [a|]; [|reflexivity].
    destruct (VideoFileClip processed_path) as [b|]; [|reflexivity].
    cbn [and_then]. destruct (np_linspace0 _ _) as [times|]; [|reflexivity].
    cbn [and_then]. do 2 f_equal. unfold audio_branch.
    destruct (audio a); [|reflexivity]. destruct (audio b); [|reflexivity].
    destruct (audio_dissimilarity _ _ _ _ _ _); [|reflexivity].
    destruct cleanup, cleanup2; reflexivity.
  - intros a b ta tb e avg aud Ha Hb Hta Htb Hraise E.
    destruct (analyze_inversion _ _ _ _ _ _ _ _ _ _ _ _ _ E)
      as (a' & b' & times & Ha' & Hb' & _ & ->).
    rewrite Ha in Ha'. rewrite Hb in Hb'. injection Ha' as <-. injection Hb' as <-.
    unfold audio_branch. now rewrite Hta, Htb, Hraise.
  - intros fsqrt2 load_audio2 librosa_stft2 cleanup2.
    unfold analyze_video_uniqueness.
    destruct (VideoFileClip original_path) as [a|]; [|reflexivity].
    destruct (VideoFileClip processed_path) as [b|]; [|reflexivity].
    cbn [and_then]. destruct (np_linspace0 _ _) as [times|]; reflexivity.
Qed.

End AnalysisMore.

End AnalyzerMore.


(* ===================================================================== *)
(** * Properties of the interface around the engine *)
(* ===================================================================== *)

Module ShellFacts.

Import PHash ImagePipeline VideoPipeline TierSpec Shell.

(** X12.  The label of an exported image, in bits.  For an original and
    an export that open and hash to 8x8 arrays, the label is the
    low-risk one when at least 29 of the 64 bits differ, the medium one
    for 20 to 28 differing bits, and the high-risk one for 19 or
    fewer. *)
Theorem image_risk_in_bits
        (Picture : Type) (Image_open : string -> outcome Picture)
        (phash : Picture -> ImageHash)
        (current_file output_path : string) (i1 i2 : Picture) :
  Image_open current_file = Return i1 ->
  Image_open output_path = Return i2 ->
  has_shape 8 8 (phash i1) = true -> has_shape 8 8 (phash i2) = true ->
  let bits := hamming (flatten (phash i1)) (flatten (phash i2)) in
  exists d label,
    image_risk Picture Image_open phash current_file output_path = Return (d, label) /\
    ((29 <= bits)%Z -> label = Risk.Low_risk) /\
    ((20 <= bits <= 28)%Z -> label = Risk.Medium_risk) /\
    ((bits <= 19)%Z -> label = Risk.High_risk).
Proof.
  intros O1 O2 S1 S2 bits. unfold image_risk, calculate_phash_difference.
  rewrite O1, O2, (PHashFacts.percentage_of_8x8 _ _ S1 S2). fold bits.
  cbn [and_then]. eexists. eexists. split; [reflexivity|].
  destruct (RiskMore.get_risk_level_cases (inject_Z bits / inject_Z 64 * 100) None)
    as [[H E] | [(H & H' & E) | [H E]]]; rewrite E; clear E;
    unfold Qle, Qlt, Qdiv, Qmult, Qinv, inject_Z in *; simpl in *;
    repeat split; intros Hb; first [reflexivity | exfalso; lia].
Qed.

Section VideoAssessment.

Variable fsqrt : Q -> Q.
Variable Picture : Type.
Variable AudioTrack : Type.
Variable VideoFileClip : string -> outcome (Analyzer.Clip AudioTrack).
Variable to_pil : Mat -> outcome Picture.
Variable phash : Picture -> ImageHash.
Variable load_audio : AudioTrack -> outcome (list Q).
Variable librosa_stft : list Q -> outcome (list (Q * Q)).
Variable cleanup : outcome unit.

(** X13.  No sample, high risk.  When one of the two clips is shorter
    than one second, no frame is compared at all; then, and also when
    no frame can be read or hashed, the phash component is 0 and the
    export is labelled high risk. *)
Theorem video_risk_without_samples
        (current_file output_path : string) (a b : Analyzer.Clip AudioTrack) :
  VideoFileClip current_file = Return a ->
  VideoFileClip output_path = Return b ->
  0 <= Analyzer.duration a -> 0 <= Analyzer.duration b ->
  Analyzer.duration a < 1 \/ Analyzer.duration b < 1 \/
  (forall t, succeeded (Analyzer.sample Picture AudioTrack to_pil phash a b t) = false) ->
  exists aud,
    video_risk Picture phash fsqrt AudioTrack VideoFileClip to_pil load_audio
               librosa_stft cleanup current_file output_path
    = Return (0, aud, Risk.High_risk).
Proof.
  intros Ha Hb Da Db Hcase.
  destruct (AnalyzerFacts.analyze_returns
              fsqrt Picture AudioTrack VideoFileClip to_pil phash load_audio
              librosa_stft cleanup current_file output_path a b Ha Hb Da Db)
    as (times & E & _ & R).
  set (d := Analyzer.py_min (Analyzer.duration a) (Analyzer.duration b)) in *.
  assert (Hshort : Analyzer.duration a < 1 \/ Analyzer.duration b < 1 -> times = []).
  { intros Hs.
    pose proof (AnalyzerMore.py_min_le (Analyzer.duration a) (Analyzer.duration b))
      as [La Lb].
    fold d in La, Lb.
    assert (Hd : d < 1) by (destruct Hs; lra).
    rewrite (AnalyzerMore.py_int_below_one d) in E;
      [|apply AnalyzerFacts.py_min_nonneg; assumption|exact Hd].
    cbn in E. now injection E as <-. }
  assert (Hnone : Analyzer.successful_samples Picture AudioTrack to_pil phash a b times = []).
  { destruct Hcase as [H | [H | H]].
    - rewrite (Hshort (or_introl H)). reflexivity.
    - rewrite (Hshort (or_intror H)). reflexivity.
    - apply AnalyzerFacts.successful_none. intros t _. apply H. }
  rewrite Hnone in R. unfold video_risk. rewrite R. cbn [and_then].
  eexists. reflexivity.
Qed.

End VideoAssessment.

Lemma append_word_injective (t t' : Tier) (rest rest' : string) :
  (tier_word t ++ rest = tier_word t' ++ rest')%string -> t = t'.
Proof.
  destruct t, t'; intros H; try reflexivity; cbn in H; congruence.
Qed.

(** X14.  The label next to the slider and the tier that is used.  For a
    level from 1 upwards, the label shows the word of the tier whose
    parameters the pipelines use at that level exactly when the level
    is 1 or at least 4: at level 2 it reads "low" while the medium tier
    is used, at level 3 "medium" while the high tier is used. *)
Theorem level_label_and_tier (level : Z) (t : Tier) :
  tier_of_level level = Some t ->
  (update_level_label level = (tier_word t ++ " (" ++ py_str level ++ "/5)")%string
   <-> level = 1%Z \/ (4 <= level)%Z).
Proof.
  unfold tier_of_level, update_level_label.
  destruct (level =? 1)%Z eqn:E1.
  - apply Z.eqb_eq in E1. subst level. intros [= <-]. cbn.
    split; [intros _; now left|reflexivity].
  - apply Z.eqb_neq in E1. destruct (level =? 2)%Z eqn:E2.
    + apply Z.eqb_eq in E2. subst level. intros [= <-].
      split; [|lia]. intros H.
      apply (append_word_injective Low Medium) in H. discriminate.
    + apply Z.eqb_neq in E2. destruct (3 <=? level)%Z eqn:E3; [|discriminate].
      apply Z.leb_le in E3. intros [= <-].
      replace (level <=? 2)%Z with false by (symmetry; apply Z.leb_gt; lia).
      destruct (level <=? 3)%Z eqn:E4.
      * apply Z.leb_le in E4. split; [|lia]. intros H.
        apply (append_word_injective Medium High) in H. discriminate.
      * apply Z.leb_gt in E4. split; [intros _; right; lia|reflexivity].
Qed.

Section CommandLineFacts.

Variable py_int_of_string : string -> option Z.

Abbreviation cli' := (cli py_int_of_string).

(** X15.  An uncaught [IndexError].  With a flag present and at least
    five words on the command line, [main] raises [IndexError], instead
    of reporting that arguments are missing, exactly when fewer than two
    words follow the first occurrence of the flag that is looked up
    ("--cli" if present, else "-c"). *)
Theorem cli_index_error (argv : list string) :
  cli' argv = IndexErrorRaised <->
  (py_in "--cli" argv || py_in "-c" argv = true /\
   (5 <= length argv)%nat /\
   (length argv <= py_index (if py_in "--cli" argv then "--cli" else "-c")%string argv + 2)%nat).
Proof.
  unfold cli.
  destruct (py_in "--cli" argv || py_in "-c" argv); [|split; [discriminate|intros [H _]; discriminate]].
  destruct (5 <=? length argv)%nat eqn:E5.
  2:{ apply Nat.leb_gt in E5. split; [discriminate|]. intros (_ & H & _). lia. }
  apply Nat.leb_le in E5.
  set (i := py_index (if py_in "--cli" argv then "--cli" else "-c")%string argv).
  destruct (nth_error argv (i + 1)) as [input|] eqn:N1.
  - destruct (nth_error argv (i + 2)) as [output|] eqn:N2.
    + split; [discriminate|]. intros (_ & _ & H).
      assert (nth_error argv (i + 2) <> None) by congruence.
      apply nth_error_Some in H0. lia.
    + apply nth_error_None in N2. split; [intros _|reflexivity].
      repeat split; [exact E5|exact N2].
  - apply nth_error_None in N1. split; [intros _|reflexivity].
    repeat split; [exact E5|lia].
Qed.

(** X16.  The level on the command line.  In the documented form
    [prog --cli input output level ...] the three words after the flag
    are taken as input, output and level; a level that [int] rejects
    becomes 3, which selects the high tier (the comment in the source
    calls it medium); a level that [int] accepts is passed on as it is,
    without a range check. *)
Theorem cli_level (prog input output s : string) (rest : list string) :
  prog <> "--cli"%string ->
  cli' (prog :: "--cli"%string :: input :: output :: s :: rest) =
  Process input output (match py_int_of_string s with
                        | Some n => n
                        | None => 3%Z
                        end) /\
  (py_int_of_string s = None ->
   cli' (prog :: "--cli"%string :: input :: output :: s :: rest) = Process input output 3 /\
   tier_of_level 3 = Some High /\
   video_parameters 3 = video_table High).
Proof.
  intros Hprog.
  assert (E : cli' (prog :: "--cli"%string :: input :: output :: s :: rest) =
              Process input output (match py_int_of_string s with
                                    | Some n => n
                                    | None => 3%Z
                                    end)).
  { unfold cli.
    assert (Hin : py_in "--cli" (prog :: "--cli"%string :: input :: output :: s :: rest) = true).
    { unfold py_in. cbn [existsb]. rewrite String.eqb_refl. now rewrite orb_true_r. }
    rewrite Hin. cbn [orb]. cbn [length Nat.leb].
    cbn [py_index]. apply String.eqb_neq in Hprog. rewrite Hprog, String.eqb_refl.
    reflexivity. }
  split; [exact E|].
  intros Hnone. rewrite E, Hnone. repeat split.
Qed.

End CommandLineFacts.

(** X17.  Levels outside 1 and 2.  Every other integer, 0 and the
    negative ones included, is processed like level 3: both pipelines
    take the parameters of the high tier. *)
Theorem other_levels_use_high_tier (level : Z) :
  level <> 1%Z -> level <> 2%Z ->
  image_parameters level = image_parameters 3 /\
  video_parameters level = video_table High /\
  (forall w, exists p w',
        image_parameters level w = (Return p, w') /\ within (image_table High) p).
Proof.
  intros H1 H2. apply Z.eqb_neq in H1, H2.
  assert (E : image_parameters level = image_parameters 3).
  { unfold image_parameters. now rewrite H1, H2. }
  split; [exact E|]. split.
  - unfold video_parameters. now rewrite H1, H2.
  - intros w. rewrite E.
    destruct (TierFacts.image_parameters_in_row 3 High w eq_refl) as (p & w' & Ep & _ & Hw).
    exists p, w'. split; assumption.
Qed.

Lemma video_parameters_cases (level : Z) :
  (level = 1%Z /\ video_parameters level = video_table Low) \/
  (level = 2%Z /\ video_parameters level = video_table Medium) \/
  (level <> 1%Z /\ level <> 2%Z /\ video_parameters level = video_table High).
Proof.
  unfold video_parameters.
  destruct (level =? 1)%Z eqn:E1; [apply Z.eqb_eq in E1; now left|].
  destruct (level =? 2)%Z eqn:E2; [apply Z.eqb_eq in E2; right; now left|].
  apply Z.eqb_neq in E1, E2. right. right. repeat split; assumption.
Qed.

(** X18.  From level 1 upwards the video parameters are monotone in the
    level: a higher level never has a smaller zoom rate or jitter, nor
    a larger GOP size or CRF. *)
Theorem video_parameters_monotone (l1 l2 : Z) :
  (1 <= l1)%Z -> (l1 <= l2)%Z ->
  zoom_rate (video_parameters l1) <= zoom_rate (video_parameters l2) /\
  jitter_range (video_parameters l1) <= jitter_range (video_parameters l2) /\
  (gop_size (video_parameters l2) <= gop_size (video_parameters l1))%Z /\
  (crf (video_parameters l2) <= crf (video_parameters l1))%Z.
Proof.
  intros H1 H12.
  destruct (video_parameters_cases l1) as [[A ->] | [[A ->] | (A & A' & ->)]];
  destruct (video_parameters_cases l2) as [[B ->] | [[B ->] | (B & B' & ->)]];
    try lia; cbn; unfold Qle; cbn; repeat split; lia.
Qed.

Section ThreadFacts.

Variable resize_at : Mat -> nat -> nat -> nat -> nat -> Pixel.
Variable warp_at : Mat -> (Q * Q * Q) * (Q * Q * Q) -> nat -> nat -> Pixel.
Variable normal_noise : Q -> nat -> nat -> nat -> nat -> Pixel.
Variable addWeighted_px : Pixel -> Q -> Pixel -> Q -> Q -> Pixel.
Variable bgr2hls : Pixel -> Pixel.
Variable hls2bgr : Pixel -> Pixel.
Variable imwrite_status : string -> Mat -> outcome bool.
Variable process_video : string -> string -> Z -> M bool.

Abbreviation run' :=
  (processing_thread_run resize_at warp_at normal_noise addWeighted_px bgr2hls hls2bgr
                         imwrite_status process_video).


End ThreadFacts.

End ShellFacts.


(* ===================================================================== *)
(** * The further properties on concrete inputs *)
(* ===================================================================== *)

Module MoreWitnesses.

Import PHash ImagePipeline VideoPipeline TierSpec Shell.

Lemma calculate_phash_difference_sym_witness :
  calculate_phash_difference _ Examples.open_demo Examples.phash_demo "a.png" "b.png" =
  calculate_phash_difference _ Examples.open_demo Examples.phash_demo "b.png" "a.png".
Proof.
  apply (PHashMore.calculate_phash_difference_sym
           _ Examples.open_demo Examples.phash_demo "a.png" "b.png"
           Examples.hash_a Examples.hash_b); reflexivity.
Defined.

Lemma calculate_phash_difference_divisor_witness :
  exists d, calculate_phash_difference _ MoreExamples.open_wide Examples.phash_demo
              "a.png" "b.png" = Return d /\ d == 200.
Proof.
  destruct (PHashMore.calculate_phash_difference_divisor
              _ MoreExamples.open_wide Examples.phash_demo 2 16 "a.png" "b.png"
              MoreExamples.wide_a MoreExamples.wide_b eq_refl eq_refl
              ltac:(lia) eq_refl eq_refl)
    as (d & E & _ & _ & _ & Hmax).
  exists d. split; [exact E|].
  rewrite (Hmax eq_refl). reflexivity.
Defined.


Lemma process_image_write_refused_witness :
  exists w',
    process_image Examples.keep_at Examples.warp_keep Examples.no_noise
                  Examples.weighted_first Examples.same_pixel Examples.same_pixel
                  MoreExamples.never_written "in.png" "out.png" 2 Examples.demo_world
    = (Return true, w') /\
    files w' = files Examples.demo_world.
Proof.
  apply (ImageMore.process_image_write_refused
           Examples.keep_at Examples.warp_keep Examples.no_noise
           Examples.weighted_first Examples.same_pixel Examples.same_pixel
           MoreExamples.never_written "in.png" "out.png" 2 Examples.demo_world
           Examples.solid).
  - reflexivity.
  - simpl. lia.
  - simpl. lia.
  - intros m. reflexivity.
Defined.

Lemma process_image_touches_output_only_witness :
  files (snd (process_image Examples.keep_at Examples.warp_keep Examples.no_noise
                            Examples.weighted_first Examples.same_pixel
                            Examples.same_pixel Examples.always_written
                            "in.png" "out.png" 1 Examples.demo_world)) "in.png"%string
  = Some Examples.solid.
Proof.
  rewrite (ImageMore.process_image_touches_output_only
             Examples.keep_at Examples.warp_keep Examples.no_noise
             Examples.weighted_first Examples.same_pixel Examples.same_pixel
             Examples.always_written "in.png" "out.png" 1 Examples.demo_world
             "in.png").
  - reflexivity.
  - discriminate.
Defined.

Lemma keyframe_times_inside_both_clips_witness :
  exists times,
    Analyzer.np_linspace0 5 5 = Return times /\ length times = 5%nat /\
    Forall (fun t => 0 <= t /\ t <= 5 /\ t <= 5.5) times.
Proof.
  destruct (AnalyzerMore.keyframe_times_inside_both_clips
              (list Q) Examples.clip_talk Examples.clip_proc)
    as (times & E & L & Hall & _).
  - unfold Qle. simpl. lia.
  - unfold Qle. simpl. lia.
  - exists times. split; [exact E|]. split; [exact L|exact Hall].
Defined.

Lemma analyze_same_clip_witness :
  exists avg aud, Examples.analyze_demo "talk.mp4" "talk.mp4" = Return (avg, aud) /\ avg == 0.
Proof.
  unfold Examples.analyze_demo.
  apply (AnalyzerMore.analyze_same_clip
           Examples.fsqrt_demo ImagePipeline.Mat (list Q) Examples.open_clip
           Examples.to_pil_demo Examples.phash_frame Examples.load_demo
           Examples.stft_demo Examples.cleanup_demo "talk.mp4" Examples.clip_talk).
  - reflexivity.
  - unfold Qle. simpl. lia.
  - exact AnalyzerFacts.phash_frame_8x8.
Defined.

Lemma audio_block_is_fail_soft_witness :
  exists avg,
    Analyzer.analyze_video_uniqueness
      Examples.fsqrt_demo ImagePipeline.Mat (list Q) Examples.open_clip
      Examples.to_pil_demo Examples.phash_frame MoreExamples.load_broken
      Examples.stft_demo Examples.cleanup_demo "talk.mp4" "proc.mp4"
    = Return (avg, Some 0).
Proof.
  destruct (Analyzer.analyze_video_uniqueness
              Examples.fsqrt_demo ImagePipeline.Mat (list Q) Examples.open_clip
              Examples.to_pil_demo Examples.phash_frame MoreExamples.load_broken
              Examples.stft_demo Examples.cleanup_demo "talk.mp4" "proc.mp4")
    as [[avg aud]|] eqn:E; [|vm_compute in E; discriminate].
  destruct (AnalyzerMore.audio_block_is_fail_soft
              Examples.fsqrt_demo ImagePipeline.Mat (list Q) Examples.open_clip
              Examples.to_pil_demo Examples.phash_frame MoreExamples.load_broken
              Examples.stft_demo Examples.cleanup_demo "talk.mp4" "proc.mp4")
    as (_ & Hsoft & _).
  rewrite (Hsoft Examples.clip_talk Examples.clip_proc [1; 2; 3; 4] [1; 2; 4; 3; 9]
                 OSError avg aud eq_refl eq_refl eq_refl eq_refl eq_refl E).
  exists avg. reflexivity.
Defined.

Lemma image_risk_in_bits_witness :
  exists d, image_risk _ Examples.open_demo Examples.phash_demo "a.png" "b.png"
            = Return (d, Risk.High_risk).
Proof.
  destruct (ShellFacts.image_risk_in_bits
              _ Examples.open_demo Examples.phash_demo "a.png" "b.png"
              Examples.hash_a Examples.hash_b eq_refl eq_refl eq_refl eq_refl)
    as (d & label & E & _ & _ & Hhigh).
  exists d. rewrite E, Hhigh; [reflexivity|]. vm_compute. discriminate.
Defined.

Lemma video_risk_without_samples_witness :
  exists aud,
    video_risk ImagePipeline.Mat Examples.phash_frame Examples.fsqrt_demo (list Q)
               MoreExamples.open_short Examples.to_pil_demo Examples.load_demo
               Examples.stft_demo Examples.cleanup_demo "short.mp4" "proc.mp4"
    = Return (0, aud, Risk.High_risk).
Proof.
  apply (ShellFacts.video_risk_without_samples
           Examples.fsqrt_demo ImagePipeline.Mat (list Q) MoreExamples.open_short
           Examples.to_pil_demo Examples.phash_frame Examples.load_demo
           Examples.stft_demo Examples.cleanup_demo "short.mp4" "proc.mp4"
           MoreExamples.clip_short Examples.clip_proc).
  - reflexivity.
  - reflexivity.
  - unfold Qle. simpl. lia.
  - unfold Qle. simpl. lia.
  - left. unfold Qlt. simpl. lia.
Defined.

Lemma level_label_and_tier_witness :
  update_level_label 5 = (tier_word High ++ " (" ++ py_str 5 ++ "/5)")%string /\
  update_level_label 2 <> (tier_word Medium ++ " (" ++ py_str 2 ++ "/5)")%string.
Proof.
  split.
  - apply (ShellFacts.level_label_and_tier 5 High eq_refl). right. lia.
  - intros H. apply (ShellFacts.level_label_and_tier 2 Medium eq_refl) in H.
    destruct H as [H|H]; [discriminate H|lia].
Defined.

Lemma cli_index_error_witness :
  cli MoreExamples.int_demo ["main.py"; "in.png"; "out.png"; "3"; "--cli"]%string
  = IndexErrorRaised.
Proof.
  apply (ShellFacts.cli_index_error MoreExamples.int_demo).
  split; [reflexivity|]. split; simpl; lia.
Defined.

Lemma cli_level_witness :
  cli MoreExamples.int_demo ["main.py"; "--cli"; "in.png"; "out.png"; "high"]%string
  = Process "in.png" "out.png" 3.
Proof.
  apply (ShellFacts.cli_level MoreExamples.int_demo "main.py" "in.png" "out.png"
                               "high" []).
  - discriminate.
  - reflexivity.
Defined.

Lemma other_levels_use_high_tier_witness :
  video_parameters 0 = video_table High /\ image_parameters (-4) = image_parameters 3.
Proof.
  split.
  - apply (ShellFacts.other_levels_use_high_tier 0); discriminate.
  - apply (ShellFacts.other_levels_use_high_tier (-4)); discriminate.
Defined.

Lemma video_parameters_monotone_witness :
  (crf (video_parameters 5) <= crf (video_parameters 1))%Z.
Proof.
  apply (ShellFacts.video_parameters_monotone 1 5); lia.
Defined.


End MoreWitnesses.
